(** * The assistant-bot address book (main_task_1.py)

    A shallow embedding of the contact manager: the validated fields
    [Name], [Phone] and [Birthday], the [Record_] objects, the
    [AddressBook] dictionary, the upcoming-birthdays query and the
    command handlers [add_contact] and [change_phone], followed by the
    properties of the specification that concern them.

    Python strings are sequences of Unicode code points, the dictionary
    keeps insertion order, records are objects reached through
    references, and exceptions leave the mutations made before them in
    place.  The embedding keeps all four. *)

From Stdlib Require Import ZArith Lia Ascii String.
From stdpp Require Import base tactics option list numbers.

Local Open Scope Z_scope.

(** ** Strings *)

(** A [str] is a list of code points. *)
Definition pystr := list Z.

Definition chr (a : ascii) : Z := Z.of_N (N_of_ascii a).

(** String literals of the source, all of them ASCII. *)
Definition lit (s : string) : pystr := chr <$> list_ascii_of_string s.

Definition in_range (lo hi c : Z) : bool := (lo <=? c) && (c <=? hi).

Module Unicode.

(** First code points of the runs of ten decimal digits (general
    category Nd) of the Unicode database, version 14.0; the run
    U+1D7CE..U+1D7FF of mathematical digits is five such runs. *)
Definition decimal_runs : list Z :=
  [ 0x30; 0x660; 0x6f0; 0x7c0; 0x966; 0x9e6; 0xa66; 0xae6; 0xb66; 0xbe6;
    0xc66; 0xce6; 0xd66; 0xde6; 0xe50; 0xed0; 0xf20; 0x1040; 0x1090;
    0x17e0; 0x1810; 0x1946; 0x19d0; 0x1a80; 0x1a90; 0x1b50; 0x1bb0;
    0x1c40; 0x1c50; 0xa620; 0xa8d0; 0xa900; 0xa9d0; 0xa9f0; 0xaa50;
    0xabf0; 0xff10; 0x104a0; 0x10d30; 0x11066; 0x110f0; 0x11136;
    0x111d0; 0x112f0; 0x11450; 0x114d0; 0x11650; 0x116c0; 0x11730;
    0x118e0; 0x11950; 0x11c50; 0x11d50; 0x11da0; 0x16a60; 0x16ac0;
    0x16b50; 0x1d7ce; 0x1d7d8; 0x1d7e2; 0x1d7ec; 0x1d7f6; 0x1e140;
    0x1e2f0; 0x1e950; 0x1fbf0 ].

(** Code points whose Numeric_Type is Digit without being Decimal:
    superscripts, subscripts, circled and dotted digits and the like,
    as inclusive ranges. *)
Definition other_digit_ranges : list (Z * Z) :=
  [ (0xb2, 0xb3); (0xb9, 0xb9); (0x1369, 0x1371); (0x19da, 0x19da);
    (0x2070, 0x2070); (0x2074, 0x2079); (0x2080, 0x2089);
    (0x2460, 0x2468); (0x2474, 0x247c); (0x2488, 0x2490);
    (0x24ea, 0x24ea); (0x24f5, 0x24fd); (0x24ff, 0x24ff);
    (0x2776, 0x277e); (0x2780, 0x2788); (0x278a, 0x2792);
    (0x10a40, 0x10a43); (0x10e60, 0x10e68); (0x11052, 0x1105a);
    (0x1f100, 0x1f10a) ].

(** [Py_UNICODE_TODECIMAL]: the value of a decimal digit, if it is one. *)
Definition to_decimal (c : Z) : option Z :=
  (λ start, c - start) <$> List.find (λ start, in_range start (start + 9) c) decimal_runs.

(** [Py_UNICODE_ISDECIMAL], which is also what [\d] matches in a
    [str] pattern of the [re] module. *)
Definition isdecimal (c : Z) : bool := bool_decide (is_Some (to_decimal c)).

(** [Py_UNICODE_ISDIGIT], the test behind [str.isdigit]. *)
Definition isdigit (c : Z) : bool :=
  isdecimal c || existsb (λ r, in_range r.1 r.2 c) other_digit_ranges.

(** The ten characters [0]..[9]. *)
Definition ascii_digit (c : Z) : bool := in_range (chr "0") (chr "9") c.

End Unicode.

(** [str.isdigit()]: every character is a digit and there is at least one. *)
Definition str_isdigit (s : pystr) : bool :=
  negb (bool_decide (s = [])) && forallb Unicode.isdigit s.

(** ** Exceptions *)

(** Every exception of the program is a [ValueError]: failed validation,
    failed date construction, failed unpacking of the argument list and
    [list.remove] of a missing element. *)
Inductive exn : Type :=
  | ValueError (msg : pystr).

(** [str(e)] *)
Definition str_exn (e : exn) : pystr :=
  match e with ValueError msg => msg end.

Inductive result (A : Type) : Type :=
  | Ok (a : A)
  | Raise (e : exn).
Arguments Ok {A} a.
Arguments Raise {A} e.

(** ** Validated fields *)

Module Name.
Record t := mk { value : pystr }.

Definition init (value : pystr) : result t := Ok (mk value).
End Name.

Module Phone.
Record t := mk { value : pystr }.

Definition init (value : pystr) : result t :=
  if negb (str_isdigit value) || negb (length value =? 10)%nat
  then Raise (ValueError (lit "Phone number must be 10 digits."))
  else Ok (mk value).
End Phone.

(** ** Decimal text *)

(** The decimal digits of [n >= 0], most significant first; [fuel] bounds
    their number. *)
Fixpoint dec_digits (fuel : nat) (n : Z) : pystr :=
  match fuel with
  | O => []
  | S f => (if n <? 10 then [] else dec_digits f (n / 10)) ++ [chr "0" + n mod 10]
  end.

(** [str(n)] for an integer. *)
Definition str_int (n : Z) : pystr :=
  if n <? 0 then chr "-" :: dec_digits (S (Z.to_nat (Z.log2 (- n)))) (- n)
  else dec_digits (S (Z.to_nat (Z.log2 n))) n.

(** [s.zfill(w)] for a string without sign. *)
Definition zfill (w : nat) (s : pystr) : pystr :=
  replicate (w - length s) (chr "0") ++ s.

Fixpoint lstrip_blank (s : pystr) : pystr :=
  match s with
  | c :: r => if c =? chr " " then lstrip_blank r else s
  | [] => []
  end.

(** [int(s)] on the texts the groups of the date pattern capture: an
    optional leading blank, which [int] strips, and decimal digits of any
    script. *)
Definition py_int (s : pystr) : Z :=
  foldl (λ acc c, acc * 10 + default 0 (Unicode.to_decimal c)) 0 (lstrip_blank s).

(** ** datetime *)

Module Timedelta.
Record t := mk { days : Z; seconds : Z; microseconds : Z }.

(** Carries microseconds into seconds and seconds into days, with
    floor division, as the constructor does. *)
Definition normalize (d s us : Z) : t :=
  let s := s + us / 1000000 in
  let us := us mod 1000000 in
  let d := d + s / 86400 in
  let s := s mod 86400 in
  mk d s us.
End Timedelta.

Module Datetime.
Record t := mk {
  year : Z; month : Z; day : Z;
  hour : Z; minute : Z; second : Z; microsecond : Z }.

(** The calendar arithmetic of the [datetime] module: the proleptic
    Gregorian calendar, days counted from 1 January of year 1. *)
Definition MINYEAR : Z := 1.
Definition MAXYEAR : Z := 9999.

Definition is_leap (y : Z) : bool :=
  (y mod 4 =? 0) && (negb (y mod 100 =? 0) || (y mod 400 =? 0)).

Definition days_in_month (y m : Z) : Z :=
  if (m =? 2) && is_leap y then 29
  else nth (Z.to_nat m) [-1; 31; 28; 31; 30; 31; 30; 31; 31; 30; 31; 30; 31] 0.

Definition days_before_year (y : Z) : Z :=
  let y := y - 1 in y * 365 + y / 4 - y / 100 + y / 400.

Definition days_before_month (y m : Z) : Z :=
  nth (Z.to_nat m) [-1; 0; 31; 59; 90; 120; 151; 181; 212; 243; 273; 304; 334] 0
  + (if (2 <? m) && is_leap y then 1 else 0).

Definition ymd_to_ord (y m d : Z) : Z :=
  days_before_year y + days_before_month y m + d.

Definition toordinal (dt : t) : Z := ymd_to_ord (year dt) (month dt) (day dt).

Definition check_date_args (y m d : Z) : result unit :=
  if negb (in_range MINYEAR MAXYEAR y)
  then Raise (ValueError (lit "year " ++ str_int y ++ lit " is out of range"))
  else if negb (in_range 1 12 m)
  then Raise (ValueError (lit "month must be in 1..12"))
  else if negb (in_range 1 (days_in_month y m) d)
  then Raise (ValueError (lit "day is out of range for month"))
  else Ok ().

Definition check_time_args (h mi s us : Z) : result unit :=
  if negb (in_range 0 23 h)
  then Raise (ValueError (lit "hour must be in 0..23"))
  else if negb (in_range 0 59 mi)
  then Raise (ValueError (lit "minute must be in 0..59"))
  else if negb (in_range 0 59 s)
  then Raise (ValueError (lit "second must be in 0..59"))
  else if negb (in_range 0 999999 us)
  then Raise (ValueError (lit "microsecond must be in 0..999999"))
  else Ok ().

(** [datetime(y, m, d, h, mi, s, us)] *)
Definition new (y m d h mi s us : Z) : result t :=
  match check_date_args y m d with
  | Raise e => Raise e
  | Ok _ =>
      match check_time_args h mi s us with
      | Raise e => Raise e
      | Ok _ => Ok (mk y m d h mi s us)
      end
  end.

(** The values the constructor lets through. *)
Definition valid (dt : t) : bool :=
  in_range MINYEAR MAXYEAR (year dt) && in_range 1 12 (month dt)
  && in_range 1 (days_in_month (year dt) (month dt)) (day dt)
  && in_range 0 23 (hour dt) && in_range 0 59 (minute dt)
  && in_range 0 59 (second dt) && in_range 0 999999 (microsecond dt).

(** [dt.replace(year=y)]: a new datetime, built by the constructor. *)
Definition replace_year (dt : t) (y : Z) : result t :=
  new y (month dt) (day dt) (hour dt) (minute dt) (second dt) (microsecond dt).

(** [a - b] of two naive datetimes. *)
Definition sub (a b : t) : Timedelta.t :=
  let delta_d := toordinal a - toordinal b in
  let delta_s :=
    (hour a - hour b) * 3600 + (minute a - minute b) * 60 + (second a - second b) in
  let delta_us := microsecond a - microsecond b in
  Timedelta.normalize delta_d delta_s delta_us.

(** *** [strptime(s, "%d.%m.%Y")]

    [_strptime] turns the format into the pattern
    [(?P<d>3[0-1]|[1-2]\d|0[1-9]|[1-9]| [1-9])\.(?P<m>1[0-2]|0[1-9]|[1-9])\.(?P<Y>\d\d\d\d)],
    matches it at the start of the data, refuses data left over after
    the match, converts the groups with [int] and builds the date.
    The matcher below tries the alternatives of a group from left to
    right and moves to the next one when the rest of the pattern fails,
    as the backtracking engine does.  The pattern is compiled with
    [IGNORECASE], which changes nothing for digits, dots and blanks. *)

Definition orelse {R} (a b : option R) : option R :=
  match a with Some r => Some r | None => b end.

Definition seq1 {R} (p : Z → bool) (s : pystr) (k : pystr → pystr → option R) : option R :=
  match s with
  | c :: r => if p c then k [c] r else None
  | _ => None
  end.

Definition seq2 {R} (p1 p2 : Z → bool) (s : pystr) (k : pystr → pystr → option R) : option R :=
  match s with
  | c1 :: c2 :: r => if p1 c1 && p2 c2 then k [c1; c2] r else None
  | _ => None
  end.

Definition is_chr (a : ascii) (c : Z) : bool := c =? chr a.
Definition chr_range (lo hi : ascii) (c : Z) : bool := in_range (chr lo) (chr hi) c.

Definition re_d {R} (s : pystr) (k : pystr → pystr → option R) : option R :=
  orelse (seq2 (is_chr "3") (chr_range "0" "1") s k)
 (orelse (seq2 (chr_range "1" "2") Unicode.isdecimal s k)
 (orelse (seq2 (is_chr "0") (chr_range "1" "9") s k)
 (orelse (seq1 (chr_range "1" "9") s k)
         (seq2 (is_chr " ") (chr_range "1" "9") s k)))).

Definition re_m {R} (s : pystr) (k : pystr → pystr → option R) : option R :=
  orelse (seq2 (is_chr "1") (chr_range "0" "2") s k)
 (orelse (seq2 (is_chr "0") (chr_range "1" "9") s k)
         (seq1 (chr_range "1" "9") s k)).

Definition re_dot {R} (s : pystr) (k : pystr → option R) : option R :=
  match s with
  | c :: r => if is_chr "." c then k r else None
  | _ => None
  end.

Definition re_Y {R} (s : pystr) (k : pystr → pystr → option R) : option R :=
  match s with
  | c1 :: c2 :: c3 :: c4 :: r =>
      if Unicode.isdecimal c1 && Unicode.isdecimal c2
         && Unicode.isdecimal c3 && Unicode.isdecimal c4
      then k [c1; c2; c3; c4] r else None
  | _ => None
  end.

(** The groups [d], [m], [Y] of the first match and the data after it. *)
Definition match_dmY (s : pystr) : option (pystr * pystr * pystr * pystr) :=
  re_d s (λ d r1, re_dot r1 (λ r2, re_m r2 (λ m r3, re_dot r3 (λ r4,
    re_Y r4 (λ Y r5, Some (d, m, Y, r5)))))).

(** The two messages of [_strptime] also quote the data with [repr];
    the quotation is left out, [Birthday] replaces the message. *)
Definition strptime_dmY (s : pystr) : result t :=
  match match_dmY s with
  | None => Raise (ValueError (lit "time data does not match format"))
  | Some (d, m, Y, rest) =>
      if negb (bool_decide (rest = []))
      then Raise (ValueError (lit "unconverted data remains"))
      else new (py_int Y) (py_int m) (py_int d) 0 0 0 0
  end.

(** *** [dt.strftime("%d.%m.%Y")]

    Day and month are written with two digits.  The year is written by
    the C library's [strftime]: glibc prints it as a plain number, so a
    year below 1000 comes out with fewer than four digits, while other
    C libraries, and CPython itself from version 3.13 on, fill it with
    zeros to four digits.  [pad_year] says which of the two the platform
    does. *)
Definition strftime_dmY (pad_year : bool) (dt : t) : pystr :=
  zfill 2 (str_int (day dt)) ++ lit "." ++ zfill 2 (str_int (month dt)) ++ lit "."
  ++ (if pad_year then zfill 4 (str_int (year dt)) else str_int (year dt)).

End Datetime.

Module Birthday.
Record t := mk { value : Datetime.t }.

Definition init (value : pystr) : result t :=
  match Datetime.strptime_dmY value with
  | Ok dt => Ok (mk dt)
  | Raise (ValueError _) => Raise (ValueError (lit "Invalid date format. Use DD.MM.YYYY"))
  end.
End Birthday.

(** ** Records, the book and the store *)

Module Record_.
Record t := mk {
  name : Name.t;
  phones : list Phone.t;
  birthday : option Birthday.t }.

(** The record after an assignment to [phones], to [birthday]. *)
Definition with_phones (ps : list Phone.t) (r : t) : t := mk (name r) ps (birthday r).
Definition with_birthday (b : option Birthday.t) (r : t) : t := mk (name r) (phones r) b.
End Record_.

Global Instance Record_inhabited : Inhabited Record_.t :=
  populate (Record_.mk (Name.mk []) [] None).

(** A [dict] with string keys: the entries in insertion order, one per
    key.  Assigning to a key that is present keeps its place. *)
Definition dict (V : Type) := list (pystr * V).

Fixpoint dict_get {V} (k : pystr) (d : dict V) : option V :=
  match d with
  | [] => None
  | (k', v) :: d' => if bool_decide (k' = k) then Some v else dict_get k d'
  end.

Fixpoint dict_set {V} (k : pystr) (v : V) (d : dict V) : dict V :=
  match d with
  | [] => [(k, v)]
  | (k', v') :: d' =>
      if bool_decide (k' = k) then (k', v) :: d' else (k', v') :: dict_set k v d'
  end.

Definition dict_keys {V} (d : dict V) : list pystr := d.*1.
Definition dict_values {V} (d : dict V) : list V := d.*2.

(** A reference to a [Record] object. *)
Abbreviation loc := nat (only parsing).

(** The objects of a run: the [Record] objects, each at its reference,
    and the [records] dictionary of the one [AddressBook], whose values
    are references.  A record stays in the heap when the book drops it. *)
Record store := mkStore {
  heap : list Record_.t;
  records : dict loc }.

(** Computations that read and change the store and may raise.  What was
    changed before an exception stays changed. *)
Definition M (A : Type) : Type := store → result A * store.

Global Instance M_ret : MRet M := λ A a σ, (Ok a, σ).
Global Instance M_bind : MBind M := λ A B f m σ,
  match m σ with
  | (Ok a, σ') => f a σ'
  | (Raise e, σ') => (Raise e, σ')
  end.

Definition raise {A} (e : exn) : M A := λ σ, (Raise e, σ).
Definition lift {A} (r : result A) : M A := λ σ, (r, σ).

Definition deref (l : loc) : M Record_.t := λ σ, (Ok (heap σ !!! l), σ).
Definition alloc (r : Record_.t) : M loc := λ σ,
  (Ok (length (heap σ)), mkStore (heap σ ++ [r]) (records σ)).
Definition update (l : loc) (f : Record_.t → Record_.t) : M unit := λ σ,
  (Ok (), mkStore (alter f l (heap σ)) (records σ)).

(** [self.records[k] = l] *)
Definition set_item (k : pystr) (l : loc) : M unit := λ σ,
  (Ok (), mkStore (heap σ) (dict_set k l (records σ))).

(** [l.remove(x)]: without the first element equal to [x].  A [Phone]
    has no [__eq__], so Python compares the objects themselves; every
    [add_phone] makes a new object, and [change_phone] removes the first
    phone whose value is the one it looks for, which is the same element
    whether phones are compared as objects or by value. *)
Fixpoint list_remove `{EqDecision A} (x : A) (l : list A) : result (list A) :=
  match l with
  | [] => Raise (ValueError (lit "list.remove(x): x not in list"))
  | y :: l' =>
      if decide (y = x) then Ok l'
      else match list_remove x l' with
           | Ok l'' => Ok (y :: l'')
           | Raise e => Raise e
           end
  end.

Global Instance Phone_eq_dec : EqDecision Phone.t.
Proof. solve_decision. Defined.

(** *** Record *)

Definition Record_init (name : pystr) : M loc :=
  n ← lift (Name.init name);
  alloc (Record_.mk n [] None).

Definition Record_add_phone (self : loc) (phone : pystr) : M unit :=
  p ← lift (Phone.init phone);
  update self (λ r, Record_.with_phones (Record_.phones r ++ [p]) r).

Definition Record_add_birthday (self : loc) (birthday : pystr) : M unit :=
  b ← lift (Birthday.init birthday);
  update self (Record_.with_birthday (Some b)).

Definition Record_show_birthday (pad_year : bool) (self : loc) : M pystr :=
  r ← deref self;
  match Record_.birthday r with
  | Some b => mret (Datetime.strftime_dmY pad_year (Birthday.value b))
  | None => mret (lit "No birthday set.")
  end.

(** *** AddressBook *)

Definition AddressBook_add_record (record : loc) : M unit :=
  r ← deref record;
  set_item (Name.value (Record_.name r)) record.

Definition AddressBook_find (name : pystr) : M (option loc) := λ σ,
  (Ok (dict_get name (records σ)), σ).

(** The loop of [get_upcoming_birthdays] over the values of the
    dictionary; [today] is what [datetime.today()] returned, a date with
    its time of day. *)
Fixpoint upcoming_loop (today : Datetime.t) (h : list Record_.t) (values : list loc)
    (upcoming_birthdays : list pystr) : result (list pystr) :=
  match values with
  | [] => Ok upcoming_birthdays
  | l :: rest =>
      let record := h !!! l in
      match Record_.birthday record with
      | Some b =>
          match Datetime.replace_year (Birthday.value b) (Datetime.year today) with
          | Raise e => Raise e
          | Ok birthday_this_year =>
              let days := Timedelta.days (Datetime.sub birthday_this_year today) in
              if (0 <=? days) && (days <? 7)
              then upcoming_loop today h rest
                     (upcoming_birthdays ++ [Name.value (Record_.name record)])
              else upcoming_loop today h rest upcoming_birthdays
          end
      | None => upcoming_loop today h rest upcoming_birthdays
      end
  end.

Definition AddressBook_get_upcoming_birthdays (today : Datetime.t) : M (list pystr) := λ σ,
  (upcoming_loop today (heap σ) (dict_values (records σ)) [], σ).

(** ** Command handlers *)

(** The decorator: whatever the handler raises becomes its message. *)
Definition input_error (func : M pystr) : M pystr := λ σ,
  match func σ with
  | (Ok a, σ') => (Ok a, σ')
  | (Raise e, σ') => (Ok (str_exn e), σ')
  end.

Definition add_contact_func (args : list pystr) : M pystr :=
  match args with
  | name :: phone :: _ =>
      found ← AddressBook_find name;
      '(record, message) ←
        match found with
        | Some record => mret (record, lit "Contact updated.")
        | None =>
            record ← Record_init name;
            AddressBook_add_record record;;
            mret (record, lit "Contact added.")
        end;
      (if bool_decide (phone = []) then mret () else Record_add_phone record phone);;
      mret message
  | _ =>
      raise (ValueError (lit "not enough values to unpack (expected at least 2, got "
                         ++ str_int (Z.of_nat (length args)) ++ lit ")"))
  end.

Definition add_contact (args : list pystr) : M pystr :=
  input_error (add_contact_func args).

(** The [for] loop of [change_phone] over the phones of the record; it
    changes the list only on the step at which it returns.  [None] when
    the loop ends without a [return]. *)
Fixpoint change_phone_loop (record : loc) (phones : list Phone.t)
    (old_phone new_phone : pystr) : M (option pystr) :=
  match phones with
  | [] => mret None
  | phone :: rest =>
      if bool_decide (Phone.value phone = old_phone) then
        r ← deref record;
        ps ← lift (list_remove phone (Record_.phones r));
        update record (Record_.with_phones ps);;
        Record_add_phone record new_phone;;
        mret (Some (lit "Phone number updated."))
      else change_phone_loop record rest old_phone new_phone
  end.

Definition change_phone_func (args : list pystr) : M pystr :=
  match args with
  | [name; old_phone; new_phone] =>
      found ← AddressBook_find name;
      match found with
      | Some record =>
          r ← deref record;
          returned ← change_phone_loop record (Record_.phones r) old_phone new_phone;
          match returned with
          | Some message => mret message
          | None => mret (lit "Old phone number not found.")
          end
      | None => mret (lit "Contact not found.")
      end
  | _ =>
      if (length args <? 3)%nat
      then raise (ValueError (lit "not enough values to unpack (expected 3, got "
                              ++ str_int (Z.of_nat (length args)) ++ lit ")"))
      else raise (ValueError (lit "too many values to unpack (expected 3)"))
  end.

Definition change_phone (args : list pystr) : M pystr :=
  input_error (change_phone_func args).

(** A store as a run of the program can build it: every entry of the
    book refers to an object of the heap, under the name of that
    object, and no key occurs twice. *)
Definition wf_store (σ : store) : Prop :=
  NoDup (dict_keys (records σ))
  ∧ Forall (λ e, (e.2 < length (heap σ))%nat
                 ∧ Name.value (Record_.name (heap σ !!! e.2)) = e.1) (records σ).

Global Instance wf_store_dec σ : Decision (wf_store σ).
Proof. unfold wf_store. apply _. Defined.


(** ** The other handlers and the loop of [main] *)

(** The characters [str.isspace] accepts, as inclusive ranges (Unicode
    14.0); [str.split()] cuts at them. *)
Definition space_ranges : list (Z * Z) :=
  [ (0x9, 0xd); (0x1c, 0x20); (0x85, 0x85); (0xa0, 0xa0); (0x1680, 0x1680);
    (0x2000, 0x200a); (0x2028, 0x2029); (0x202f, 0x202f); (0x205f, 0x205f);
    (0x3000, 0x3000) ].

Definition py_isspace (c : Z) : bool :=
  existsb (λ r, in_range r.1 r.2 c) space_ranges.

(** [s.split()]: the maximal runs of characters that are not white
    space, in order.  [cur] is the run being read. *)
Fixpoint split_from (cur : pystr) (s : pystr) : list pystr :=
  match s with
  | [] => if bool_decide (cur = []) then [] else [cur]
  | c :: r =>
      if py_isspace c
      then (if bool_decide (cur = []) then split_from [] r else cur :: split_from [] r)
      else split_from (cur ++ [c]) r
  end.

Definition str_split (s : pystr) : list pystr := split_from [] s.

(** [sep.join(items)] *)
Fixpoint str_join (sep : pystr) (items : list pystr) : pystr :=
  match items with
  | [] => []
  | [x] => x
  | x :: rest => x ++ sep ++ str_join sep rest
  end.

Definition parse_input (user_input : pystr) : list pystr := str_split user_input.

Definition add_birthday_func (args : list pystr) : M pystr :=
  match args with
  | [name; birthday] =>
      found ← AddressBook_find name;
      match found with
      | Some record =>
          Record_add_birthday record birthday;;
          mret (lit "Birthday added.")
      | None => mret (lit "Contact not found.")
      end
  | _ =>
      if (length args <? 2)%nat
      then raise (ValueError (lit "not enough values to unpack (expected 2, got "
                              ++ str_int (Z.of_nat (length args)) ++ lit ")"))
      else raise (ValueError (lit "too many values to unpack (expected 2)"))
  end.

Definition add_birthday (args : list pystr) : M pystr :=
  input_error (add_birthday_func args).

Definition show_birthday_func (pad_year : bool) (args : list pystr) : M pystr :=
  match args with
  | [name] =>
      found ← AddressBook_find name;
      match found with
      | Some record => Record_show_birthday pad_year record
      | None => mret (lit "Contact not found.")
      end
  | _ =>
      if (length args <? 1)%nat
      then raise (ValueError (lit "not enough values to unpack (expected 1, got "
                              ++ str_int (Z.of_nat (length args)) ++ lit ")"))
      else raise (ValueError (lit "too many values to unpack (expected 1)"))
  end.

Definition show_birthday (pad_year : bool) (args : list pystr) : M pystr :=
  input_error (show_birthday_func pad_year args).

(** What a handler hands to [print]: a string, or the list of names of
    [birthdays]. *)
Inductive pyval : Type :=
  | VStr (s : pystr)
  | VList (l : list pystr).

(** The decorator around a handler that returns a list. *)
Definition input_error_val (func : M pyval) : M pyval := λ σ,
  match func σ with
  | (Ok a, σ') => (Ok a, σ')
  | (Raise e, σ') => (Ok (VStr (str_exn e)), σ')
  end.

Definition birthdays (today : Datetime.t) (args : list pystr) : M pyval :=
  input_error_val (names ← AddressBook_get_upcoming_birthdays today; mret (VList names)).

(** [", ".join(phone.value for phone in record.phones)] *)
Definition phones_text (r : Record_.t) : pystr :=
  str_join (lit ", ") (Phone.value <$> Record_.phones r).

Definition show_phones_func (args : list pystr) : M pystr :=
  match args with
  | [name] =>
      found ← AddressBook_find name;
      match found with
      | Some record => r ← deref record; mret (phones_text r)
      | None => mret (lit "Contact not found.")
      end
  | _ =>
      if (length args <? 1)%nat
      then raise (ValueError (lit "not enough values to unpack (expected 1, got "
                              ++ str_int (Z.of_nat (length args)) ++ lit ")"))
      else raise (ValueError (lit "too many values to unpack (expected 1)"))
  end.

Definition show_phones (args : list pystr) : M pystr :=
  input_error (show_phones_func args).

(** The line of one contact, [f"{record.name.value}: {phones}"]. *)
Definition contact_line (r : Record_.t) : pystr :=
  Name.value (Record_.name r) ++ lit ": " ++ phones_text r.

(** The loop of [show_all_contacts] appends one line per value of the
    dictionary; the lines are joined by a line feed (code point 10). *)
Definition show_all_contacts_func : M pystr := λ σ,
  (Ok (str_join [10] ((λ l, contact_line (heap σ !!! l)) <$> dict_values (records σ))), σ).

Definition show_all_contacts : M pystr := input_error show_all_contacts_func.

(** One turn of the [while True] loop of [main] on the line [input]
    returned: what is printed and the store after it, the end of the loop
    at [break], or an exception no handler catches.  [today] is the clock
    if the turn reads it.  The [print] calls before the loop write a fixed
    banner and are left out. *)
Inductive turn : Type :=
  | Continue (printed : pyval) (σ : store)
  | Break (printed : pyval)
  | Uncaught (e : exn).

Definition print_str (r : result pystr * store) : turn :=
  match r with
  | (Ok s, σ') => Continue (VStr s) σ'
  | (Raise e, _) => Uncaught e
  end.

Definition print_val (r : result pyval * store) : turn :=
  match r with
  | (Ok v, σ') => Continue v σ'
  | (Raise e, _) => Uncaught e
  end.

Definition main_turn (pad_year : bool) (today : Datetime.t) (user_input : pystr)
    (book : store) : turn :=
  match parse_input user_input with
  | [] =>
      Uncaught (ValueError (lit "not enough values to unpack (expected at least 1, got 0)"))
  | command :: args =>
      if bool_decide (command ∈ [lit "close"; lit "exit"]) then Break (VStr (lit "Good bye!"))
      else if bool_decide (command = lit "hello")
      then Continue (VStr (lit "How can I help you?")) book
      else if bool_decide (command = lit "add") then print_str (add_contact args book)
      else if bool_decide (command = lit "change") then print_str (change_phone args book)
      else if bool_decide (command = lit "phone") then print_str (show_phones args book)
      else if bool_decide (command = lit "all") then print_str (show_all_contacts book)
      else if bool_decide (command = lit "add-birthday")
      then print_str (add_birthday args book)
      else if bool_decide (command = lit "show-birthday")
      then print_str (show_birthday pad_year args book)
      else if bool_decide (command = lit "birthdays") then print_val (birthdays today args book)
      else Continue (VStr (lit "Invalid command.")) book
  end.

(** How a run of the loop over the lines typed so far stands: still
    reading, ended by [break], or dead of an uncaught exception. *)
Inductive run_state : Type :=
  | Reading (σ : store)
  | Ended
  | Crashed (e : exn).

(** The loop of [main] over a list of lines, each with the clock at its
    turn: everything printed, in order, and the state reached. *)
Fixpoint main_loop (pad_year : bool) (inputs : list (pystr * Datetime.t)) (book : store)
    : list pyval * run_state :=
  match inputs with
  | [] => ([], Reading book)
  | (user_input, today) :: rest =>
      match main_turn pad_year today user_input book with
      | Continue printed book' =>
          let '(out, st) := main_loop pad_year rest book' in (printed :: out, st)
      | Break printed => ([printed], Ended)
      | Uncaught e => ([], Crashed e)
      end
  end.

(** Every phone of a record validates, and its birthday, if it has one,
    is a date of the calendar at midnight. *)
Definition valid_record (r : Record_.t) : Prop :=
  Forall (λ p, Phone.init (Phone.value p) = Ok p) (Record_.phones r)
  ∧ match Record_.birthday r with
    | Some b =>
        Datetime.valid (Birthday.value b) = true
        ∧ Datetime.hour (Birthday.value b) = 0 ∧ Datetime.minute (Birthday.value b) = 0
        ∧ Datetime.second (Birthday.value b) = 0
        ∧ Datetime.microsecond (Birthday.value b) = 0
    | None => True
    end.

(** The stores the commands build: well-formed, with valid records. *)
Definition valid_store (σ : store) : Prop :=
  wf_store σ ∧ Forall valid_record (heap σ).

(** ** Vocabulary of the properties *)

(** The value of an ASCII digit. *)
Definition digit_value (c : Z) : Z := c - chr "0".

(** The day, month and year written by a string of the shape
    [DD.MM.YYYY]: two digits, a dot, two digits, a dot, four digits, the
    digits being the ASCII ones. *)
Definition read_DDMMYYYY (s : pystr) : option (Z * Z * Z) :=
  match s with
  | [d1; d2; p1; m1; m2; p2; y1; y2; y3; y4] =>
      if forallb Unicode.ascii_digit [d1; d2; m1; m2; y1; y2; y3; y4]
         && (p1 =? chr ".") && (p2 =? chr ".")
      then Some (10 * digit_value d1 + digit_value d2,
                 10 * digit_value m1 + digit_value m2,
                 1000 * digit_value y1 + 100 * digit_value y2
                 + 10 * digit_value y3 + digit_value y4)
      else None
  | _ => None
  end.

(** The Gregorian calendar: leap years, lengths of the months, and the
    dates that exist from the year 1 on. *)
Definition leap_year (y : Z) : bool :=
  ((y mod 4 =? 0) && negb (y mod 100 =? 0)) || (y mod 400 =? 0).

Definition month_length (y m : Z) : Z :=
  if m =? 2 then (if leap_year y then 29 else 28)
  else if (m =? 4) || (m =? 6) || (m =? 9) || (m =? 11) then 30
  else 31.

Definition real_date (y m d : Z) : bool :=
  (1 <=? y) && in_range 1 12 m && in_range 1 (month_length y m) d.

(** The calendar date of [a] is before the calendar date of [b]. *)
Definition date_before (a b : Datetime.t) : bool :=
  (Datetime.year a <? Datetime.year b)
  || ((Datetime.year a =? Datetime.year b)
      && ((Datetime.month a <? Datetime.month b)
          || ((Datetime.month a =? Datetime.month b)
              && (Datetime.day a <? Datetime.day b)))).

(** What makes the loop of [get_upcoming_birthdays] append the name of
    the record at [l]. *)
Definition appended (today : Datetime.t) (h : list Record_.t) (l : loc) : Prop :=
  ∃ b D, Record_.birthday (h !!! l) = Some b
         ∧ Datetime.replace_year (Birthday.value b) (Datetime.year today) = Ok D
         ∧ 0 ≤ Timedelta.days (Datetime.sub D today) < 7.

(** The phones without the first one whose value is [old]. *)
Fixpoint without_first (old : pystr) (ps : list Phone.t) : list Phone.t :=
  match ps with
  | [] => []
  | p :: ps' => if bool_decide (Phone.value p = old) then ps' else p :: without_first old ps'
  end.

(** Ten Arabic-Indic digits, U+0661 .. U+0669 and U+0660. *)
Definition arabic_indic_phone : pystr :=
  [0x661; 0x662; 0x663; 0x664; 0x665; 0x666; 0x667; 0x668; 0x669; 0x660].

(** The store after the commands [add Ann 0123456789] and
    [add-birthday Ann <birthday>] on an empty book. *)
Definition book_of_ann (birthday : pystr) : store :=
  (Record_add_birthday 0 birthday
     (add_contact [lit "Ann"; lit "0123456789"] (mkStore [] [])).2).2.

(** The store after [add Ann 0123456789] and [add Ann 1111111111]. *)
Definition book_two_phones : store :=
  (add_contact [lit "Ann"; lit "1111111111"]
     (add_contact [lit "Ann"; lit "0123456789"] (mkStore [] [])).2).2.

(** A token: not empty and free of white space. *)
Definition is_token (t : pystr) : Prop :=
  t ≠ [] ∧ Forall (λ c, py_isspace c = false) t.

(** Some record of the book has its birthday on a 29th of February. *)
Definition has_leap_day (σ : store) : bool :=
  existsb (λ l, match Record_.birthday (heap σ !!! l) with
                | Some b => (Datetime.month (Birthday.value b) =? 2)
                            && (Datetime.day (Birthday.value b) =? 29)
                | None => false
                end) (dict_values (records σ)).

Global Instance exn_eq_dec : EqDecision exn.
Proof. solve_decision. Defined.

Global Instance result_eq_dec `{EqDecision A} : EqDecision (result A).
Proof. solve_decision. Defined.

Global Instance valid_record_dec r : Decision (valid_record r).
Proof. unfold valid_record. destruct (Record_.birthday r); apply _. Defined.

Global Instance valid_store_dec σ : Decision (valid_store σ).
Proof. unfold valid_store. apply _. Defined.

(** The store after [add Ann 0123456789], [add Bob 2222222222] and
    [add-birthday Bob <birthday>]. *)
Definition book_of_ann_and_bob (birthday : pystr) : store :=
  (add_birthday [lit "Bob"; birthday]
     (add_contact [lit "Bob"; lit "2222222222"]
        (add_contact [lit "Ann"; lit "0123456789"] (mkStore [] [])).2).2).2.

(** ** Tactics *)

(** Unfolds the operations of the store monad. *)
Ltac unfold_M :=
  unfold mbind, M_bind, mret, M_ret, lift, raise, deref, alloc, update, set_item in *.

(** Evaluates the closed boolean [t] to [v] and rewrites with it. *)
Ltac bool_fact t v :=
  let H := fresh in
  assert (t = v) as H by (vm_compute; reflexivity); rewrite H; clear H.

(** Proves a closed decidable proposition by evaluating its decision. *)
Ltac solve_by_decide := apply (bool_decide_unpack _); vm_compute; exact I.

(** * Properties *)

(** ** Digits *)

Lemma in_range_spec lo hi c : in_range lo hi c = true ↔ lo ≤ c ≤ hi.
Proof. unfold in_range. rewrite andb_true_iff, !Z.leb_le. tauto. Qed.

Lemma ascii_digit_spec c : Unicode.ascii_digit c = true ↔ 48 ≤ c ≤ 57.
Proof. unfold Unicode.ascii_digit. rewrite in_range_spec. reflexivity. Qed.

Lemma ascii_digit_to_decimal c :
  Unicode.ascii_digit c = true → Unicode.to_decimal c = Some (c - 48).
Proof.
  intros H. unfold Unicode.to_decimal, Unicode.decimal_runs.
  cbn [List.find]. change (in_range 48 (48 + 9) c) with (Unicode.ascii_digit c).
  rewrite H. reflexivity.
Qed.

Lemma ascii_digit_isdecimal c : Unicode.ascii_digit c = true → Unicode.isdecimal c = true.
Proof.
  intros H. unfold Unicode.isdecimal. rewrite (ascii_digit_to_decimal c H).
  apply bool_decide_eq_true. eauto.
Qed.

Lemma ascii_digit_isdigit c : Unicode.ascii_digit c = true → Unicode.isdigit c = true.
Proof. intros H. unfold Unicode.isdigit. rewrite (ascii_digit_isdecimal c H). reflexivity. Qed.

Lemma length_10_nonempty (s : pystr) : length s = 10%nat → bool_decide (s = []) = false.
Proof. intros H. apply bool_decide_eq_false. intros ->. discriminate. Qed.


(** C4, as stated, fails: ten Arabic-Indic digits make a [Phone], and
    none of them is an ASCII digit. *)
Lemma Phone_init_arabic_indic :
  Phone.init arabic_indic_phone = Ok (Phone.mk arabic_indic_phone)
  ∧ length arabic_indic_phone = 10%nat
  ∧ forallb Unicode.ascii_digit arabic_indic_phone = false.
Proof. vm_compute. auto. Qed.

(** C4, amended.  [Phone] accepts a string exactly when it has ten
    characters and each of them is a digit for [str.isdigit], which the
    ten ASCII digits are and digits of other scripts, superscripts and
    the like are too; it then keeps the string as it is.  In every other
    case it raises the [ValueError] "Phone number must be 10 digits.".
    In particular every string of ten ASCII digits is accepted. *)
Theorem Phone_init_spec (value : pystr) :
  (∀ p, Phone.init value = Ok p ↔
        length value = 10%nat ∧ forallb Unicode.isdigit value = true ∧ p = Phone.mk value)
  ∧ (∀ e, Phone.init value = Raise e ↔
        ¬ (length value = 10%nat ∧ forallb Unicode.isdigit value = true)
        ∧ e = ValueError (lit "Phone number must be 10 digits."))
  ∧ (length value = 10%nat → forallb Unicode.ascii_digit value = true →
     Phone.init value = Ok (Phone.mk value)).
Proof.
  assert (Hinit : Phone.init value =
            if (length value =? 10)%nat && forallb Unicode.isdigit value
            then Ok (Phone.mk value)
            else Raise (ValueError (lit "Phone number must be 10 digits."))).
  { unfold Phone.init, str_isdigit.
    destruct (length value =? 10)%nat eqn:Hlen.
    - apply Nat.eqb_eq in Hlen. rewrite (length_10_nonempty _ Hlen).
      destruct (forallb Unicode.isdigit value); reflexivity.
    - rewrite orb_true_r. reflexivity. }
  rewrite Hinit. repeat split.
  - destruct (length value =? 10)%nat eqn:Hlen; simpl in *; [|discriminate].
    now apply Nat.eqb_eq.
  - destruct (length value =? 10)%nat; simpl in *; [|discriminate].
    destruct (forallb Unicode.isdigit value); [reflexivity | discriminate].
  - destruct (_ && _); congruence.
  - intros (Hlen & Hd & ->). apply Nat.eqb_eq in Hlen. rewrite Hlen, Hd. reflexivity.
  - intros [Hlen Hd]. apply Nat.eqb_eq in Hlen. rewrite Hlen, Hd in H. discriminate.
  - destruct (_ && _); congruence.
  - intros [Hn ->]. destruct (length value =? 10)%nat eqn:Hlen; [|reflexivity].
    destruct (forallb Unicode.isdigit value) eqn:Hd; [|reflexivity].
    exfalso. apply Hn. split; [now apply Nat.eqb_eq | reflexivity].
  - intros Hlen Hd. apply Nat.eqb_eq in Hlen. rewrite Hlen.
    replace (forallb Unicode.isdigit value) with true; [reflexivity|].
    symmetry. apply forallb_forall. intros c Hc.
    apply ascii_digit_isdigit. rewrite forallb_forall in Hd. auto.
Qed.

(** ** The dictionary *)

Section dict.
Context {V : Type}.
Implicit Types (d : dict V) (k : pystr) (v : V).

Lemma dict_get_Some_elem d k v : dict_get k d = Some v → (k, v) ∈ d.
Proof.
  induction d as [|[k' v'] d IH]; simpl; [discriminate|].
  case_bool_decide as Hk.
  - intros [= ->]. subst. left.
  - intros H. right. auto.
Qed.

Lemma dict_get_None_keys d k : dict_get k d = None ↔ k ∉ dict_keys d.
Proof.
  unfold dict_keys. induction d as [|[k' v'] d IH]; simpl.
  - split; [intros _; apply not_elem_of_nil | reflexivity].
  - rewrite not_elem_of_cons. case_bool_decide as Hk.
    + split; [discriminate | intros [Hn _]; by destruct Hn].
    + rewrite IH. split; [intros ?; split; [congruence | done] | tauto].
Qed.

Lemma dict_get_elem_NoDup d k v :
  NoDup (dict_keys d) → (k, v) ∈ d → dict_get k d = Some v.
Proof.
  unfold dict_keys. induction d as [|[k' v'] d IH]; simpl.
  - intros _ H. by apply elem_of_nil in H.
  - intros Hnd Hin. apply list.NoDup_cons in Hnd as [Hk' Hnd].
    apply elem_of_cons in Hin as [[= -> ->]|Hin].
    + by rewrite bool_decide_eq_true_2.
    + case_bool_decide as Hk; [|auto]. subst k'.
      exfalso. apply Hk'. apply list_elem_of_fmap. by exists (k, v).
Qed.

Lemma dict_set_absent d k v : dict_get k d = None → dict_set k v d = d ++ [(k, v)].
Proof.
  induction d as [|[k' v'] d IH]; simpl; [reflexivity|].
  case_bool_decide; [discriminate|]. intros Hget. by rewrite IH.
Qed.

Lemma dict_get_set_eq d k v : dict_get k (dict_set k v d) = Some v.
Proof.
  induction d as [|[k' v'] d IH]; simpl.
  - by rewrite bool_decide_eq_true_2.
  - case_bool_decide as Hk; simpl.
    + by rewrite bool_decide_eq_true_2.
    + by rewrite bool_decide_eq_false_2.
Qed.

Lemma dict_get_set_ne d k k' v : k' ≠ k → dict_get k' (dict_set k v d) = dict_get k' d.
Proof.
  intros Hne. induction d as [|[k0 v0] d IH]; simpl.
  - by rewrite bool_decide_eq_false_2.
  - case_bool_decide as Hk; simpl.
    + subst k0. by rewrite !bool_decide_eq_false_2.
    + by rewrite IH.
Qed.

Lemma dict_keys_set d k v :
  dict_keys (dict_set k v d) =
    if dict_get k d is Some _ then dict_keys d else dict_keys d ++ [k].
Proof.
  induction d as [|[k0 v0] d IH]; [reflexivity|].
  cbn [dict_set dict_get]. case_bool_decide as Hk; [reflexivity|].
  change (dict_keys ((k0, v0) :: dict_set k v d)) with (k0 :: dict_keys (dict_set k v d)).
  rewrite IH. by destruct (dict_get k d).
Qed.

Lemma dict_set_NoDup d k v : NoDup (dict_keys d) → NoDup (dict_keys (dict_set k v d)).
Proof.
  intros Hnd. rewrite dict_keys_set.
  destruct (dict_get k d) eqn:Hget; [done|].
  apply list.NoDup_app. split_and!; [done| |apply NoDup_singleton].
  intros x Hx Hx'. apply list_elem_of_singleton in Hx' as ->.
  by apply dict_get_None_keys in Hget.
Qed.

Lemma dict_set_elem d k v k' v' :
  NoDup (dict_keys d) →
  (k', v') ∈ dict_set k v d ↔ (k' = k ∧ v' = v) ∨ (k' ≠ k ∧ (k', v') ∈ d).
Proof.
  intros Hnd. split.
  - intros Hin. pose proof (dict_set_NoDup d k v Hnd) as Hnd'.
    apply (dict_get_elem_NoDup _ _ _ Hnd') in Hin.
    destruct (decide (k' = k)) as [->|Hne].
    + rewrite dict_get_set_eq in Hin. left. by inversion Hin.
    + rewrite dict_get_set_ne in Hin by done. right. split; [done|].
      by apply dict_get_Some_elem.
  - intros [[-> ->]|[Hne Hin]]; apply dict_get_Some_elem.
    + apply dict_get_set_eq.
    + rewrite dict_get_set_ne by done. by apply dict_get_elem_NoDup.
Qed.
End dict.

Lemma dict_get_elem_NoDup_app_new {V} (d : dict V) k v :
  dict_get k d = None → dict_get k (d ++ [(k, v)]) = Some v.
Proof. intros H. rewrite <- (dict_set_absent _ _ _ H). apply dict_get_set_eq. Qed.

(** ** Running the store monad *)

Lemma Phone_init_Ok_nonempty value p : Phone.init value = Ok p → value ≠ [] ∧ p = Phone.mk value.
Proof.
  unfold Phone.init, str_isdigit. intros H. split.
  - intros ->. simpl in H. discriminate.
  - destruct (_ || _); congruence.
Qed.

Lemma Phone_init_Raise value e :
  Phone.init value = Raise e → e = ValueError (lit "Phone number must be 10 digits.").
Proof. unfold Phone.init. destruct (_ || _); congruence. Qed.

Lemma Record_add_phone_Ok self phone p σ :
  Phone.init phone = Ok p →
  Record_add_phone self phone σ =
    (Ok (), mkStore (alter (λ r, Record_.with_phones (Record_.phones r ++ [p]) r) self (heap σ))
                    (records σ)).
Proof. intros H. unfold Record_add_phone. unfold_M. by rewrite H. Qed.

Lemma Record_add_phone_Raise self phone e σ :
  Phone.init phone = Raise e → Record_add_phone self phone σ = (Raise e, σ).
Proof. intros H. unfold Record_add_phone. unfold_M. by rewrite H. Qed.

(** ** The [add] command *)

(** C3. [add_contact] with a name the book has and a phone that
    validates appends the phone to the phones of the record found and
    answers "Contact updated."; with a name the book lacks it makes a
    record, puts it in the book under the name, appends the phone to it
    and answers "Contact added.". *)
Theorem add_contact_appends (σ : store) (name phone : pystr) (rest : list pystr)
    (p : Phone.t) :
  Phone.init phone = Ok p →
  (∀ record, dict_get name (records σ) = Some record → (record < length (heap σ))%nat →
     ∃ σ', add_contact (name :: phone :: rest) σ = (Ok (lit "Contact updated."), σ')
           ∧ records σ' = records σ
           ∧ heap σ' = alter (λ r, Record_.with_phones (Record_.phones r ++ [p]) r) record (heap σ)
           ∧ Record_.phones (heap σ' !!! record) = Record_.phones (heap σ !!! record) ++ [p])
  ∧ (dict_get name (records σ) = None →
     ∃ σ', add_contact (name :: phone :: rest) σ = (Ok (lit "Contact added."), σ')
           ∧ records σ' = records σ ++ [(name, length (heap σ))]
           ∧ heap σ' = heap σ ++ [Record_.mk (Name.mk name) [p] None]
           ∧ dict_get name (records σ') = Some (length (heap σ))
           ∧ heap σ' !!! length (heap σ) = Record_.mk (Name.mk name) [p] None).
Proof.
  intros Hp. destruct (Phone_init_Ok_nonempty _ _ Hp) as [Hne _]. split.
  - intros record Hget Hlt. eexists. split_and!.
    + unfold add_contact, input_error, add_contact_func, AddressBook_find.
      unfold mbind at 1 2 3, M_bind, mret, M_ret. rewrite Hget.
      rewrite bool_decide_eq_false_2 by done.
      rewrite (Record_add_phone_Ok _ _ _ _ Hp). reflexivity.
    + reflexivity.
    + reflexivity.
    + simpl. by rewrite list_lookup_total_alter_eq.
  - intros Hget. eexists. split_and!.
    + unfold add_contact, input_error, add_contact_func, AddressBook_find,
        AddressBook_add_record, Record_init, Name.init.
      unfold_M. rewrite Hget. simpl.
      rewrite bool_decide_eq_false_2 by done.
      rewrite (Record_add_phone_Ok _ _ _ _ Hp). simpl.
      rewrite list_lookup_total_middle by done. simpl.
      rewrite (dict_set_absent _ _ _ Hget). reflexivity.
    + reflexivity.
    + simpl. rewrite alter_app_r_alt by done. by rewrite Nat.sub_diag.
    + simpl. by apply dict_get_elem_NoDup_app_new.
    + simpl. rewrite alter_app_r_alt by done. rewrite Nat.sub_diag. simpl.
      by rewrite list_lookup_total_middle.
Qed.

(** ** The [change] command *)

Lemma change_phone_loop_not_found record ps old new σ :
  old ∉ Phone.value <$> ps → change_phone_loop record ps old new σ = (Ok None, σ).
Proof.
  induction ps as [|p ps IH]; [reflexivity|].
  rewrite fmap_cons, not_elem_of_cons. intros [Hne Hps]. simpl.
  rewrite bool_decide_eq_false_2 by congruence. auto.
Qed.

(** C8. [change_phone] for a contact of the book and an old phone that
    is not among its phones answers "Old phone number not found." and
    changes nothing in the store. *)
Theorem change_phone_old_not_found (σ : store) (name old_phone new_phone : pystr)
    (record : loc) :
  dict_get name (records σ) = Some record →
  old_phone ∉ Phone.value <$> Record_.phones (heap σ !!! record) →
  change_phone [name; old_phone; new_phone] σ = (Ok (lit "Old phone number not found."), σ).
Proof.
  intros Hget Hold.
  unfold change_phone, input_error, change_phone_func, AddressBook_find.
  unfold mbind at 1 2 3, M_bind, deref. rewrite Hget.
  by rewrite (change_phone_loop_not_found _ _ _ _ _ Hold).
Qed.

Lemma list_remove_middle (pre rest : list Phone.t) (phone : Phone.t) :
  phone ∉ pre → list_remove phone (pre ++ phone :: rest) = Ok (pre ++ rest).
Proof.
  induction pre as [|q pre IH]; simpl.
  - intros _. by rewrite decide_True.
  - rewrite not_elem_of_cons. intros [Hne Hpre].
    rewrite decide_False by congruence. by rewrite IH.
Qed.

Lemma without_first_app (pre ps : list Phone.t) (old : pystr) :
  old ∉ Phone.value <$> pre → without_first old (pre ++ ps) = pre ++ without_first old ps.
Proof.
  induction pre as [|q pre IH]; simpl; [done|].
  rewrite not_elem_of_cons. intros [Hne Hpre].
  rewrite bool_decide_eq_false_2 by congruence. by rewrite IH.
Qed.

Lemma without_first_length (ps : list Phone.t) (old : pystr) :
  old ∈ Phone.value <$> ps → S (length (without_first old ps)) = length ps.
Proof.
  induction ps as [|p ps IH]; simpl.
  - intros H. by apply elem_of_nil in H.
  - case_bool_decide as Hp; [done|].
    intros [?|Hin]%elem_of_cons; [congruence|]. simpl. by rewrite IH.
Qed.

Lemma change_phone_loop_invalid record pre ps old new e σ :
  Record_.phones (heap σ !!! record) = pre ++ ps →
  old ∉ Phone.value <$> pre →
  old ∈ Phone.value <$> ps →
  Phone.init new = Raise e →
  change_phone_loop record ps old new σ =
    (Raise e,
     mkStore (alter (Record_.with_phones (without_first old (pre ++ ps))) record (heap σ))
             (records σ)).
Proof.
  revert pre. induction ps as [|p ps IH]; intros pre Hphones Hpre Hin Hnew.
  - by apply elem_of_nil in Hin.
  - simpl. case_bool_decide as Hp.
    + unfold mbind at 1 2 3 4, M_bind, deref, lift, update. rewrite Hphones.
      rewrite list_remove_middle.
      * rewrite (Record_add_phone_Raise _ _ _ _ Hnew).
        rewrite without_first_app by done. simpl.
        by rewrite bool_decide_eq_true_2.
      * intros Hp'. apply Hpre. apply list_elem_of_fmap. by exists p.
    + apply elem_of_cons in Hin as [?|Hin]; [congruence|].
      specialize (IH (pre ++ [p])). rewrite <- (assoc_L (++)) in IH. simpl in IH.
      apply IH; [done| |done|done].
      rewrite fmap_app. simpl. rewrite not_elem_of_app, list_elem_of_singleton.
      split; [done | congruence].
Qed.

(** C10. [change_phone] for a contact whose phones contain the old phone,
    with a new phone that does not validate: the old phone is taken off
    the list before the new one is refused, the handler answers with the
    message of the failure, and the contact is left with its former
    phones less (the first occurrence of) the old one; nothing is added
    and nothing else changes. *)
Theorem change_phone_invalid_new_loses_old (σ : store)
    (name old_phone new_phone : pystr) (record : loc) (e : exn) :
  dict_get name (records σ) = Some record →
  (record < length (heap σ))%nat →
  old_phone ∈ Phone.value <$> Record_.phones (heap σ !!! record) →
  Phone.init new_phone = Raise e →
  ∃ σ', change_phone [name; old_phone; new_phone] σ = (Ok (str_exn e), σ')
        ∧ str_exn e = lit "Phone number must be 10 digits."
        ∧ records σ' = records σ
        ∧ heap σ' = alter (Record_.with_phones
                             (without_first old_phone (Record_.phones (heap σ !!! record))))
                          record (heap σ)
        ∧ Record_.phones (heap σ' !!! record) =
            without_first old_phone (Record_.phones (heap σ !!! record))
        ∧ S (length (Record_.phones (heap σ' !!! record))) =
            length (Record_.phones (heap σ !!! record))
        ∧ (∀ l, l ≠ record → heap σ' !!! l = heap σ !!! l).
Proof.
  intros Hget Hlt Hold Hnew. eexists. split_and!.
  - unfold change_phone, input_error, change_phone_func, AddressBook_find.
    unfold mbind at 1 2 3, M_bind, deref. rewrite Hget.
    rewrite (change_phone_loop_invalid record [] _ old_phone new_phone e σ);
      [reflexivity | reflexivity | apply not_elem_of_nil | done | done].
  - by rewrite (Phone_init_Raise _ _ Hnew).
  - reflexivity.
  - reflexivity.
  - simpl. by rewrite list_lookup_total_alter_eq.
  - simpl. rewrite list_lookup_total_alter_eq by done. simpl.
    by apply without_first_length.
  - intros l Hl. simpl. by rewrite list_lookup_total_alter_ne.
Qed.

(** ** Record.add_birthday *)

Lemma Birthday_init_Raise value e :
  Birthday.init value = Raise e → e = ValueError (lit "Invalid date format. Use DD.MM.YYYY").
Proof.
  unfold Birthday.init. destruct (Datetime.strptime_dmY value) as [dt|[msg]]; congruence.
Qed.

(** C6. [add_birthday] with a string that [Birthday] refuses raises the
    [ValueError] of [Birthday] and leaves the store, hence the birthday
    the record had or its absence, as it was; with a string that
    [Birthday] accepts it makes the new birthday the birthday of the
    record, whatever birthday was there, and touches nothing else. *)
Theorem Record_add_birthday_replaces_or_keeps (σ : store) (self : loc) (birthday : pystr) :
  (self < length (heap σ))%nat →
  (∀ e, Birthday.init birthday = Raise e →
     Record_add_birthday self birthday σ = (Raise e, σ)
     ∧ e = ValueError (lit "Invalid date format. Use DD.MM.YYYY"))
  ∧ (∀ b, Birthday.init birthday = Ok b →
     ∃ σ', Record_add_birthday self birthday σ = (Ok (), σ')
           ∧ Record_.birthday (heap σ' !!! self) = Some b
           ∧ Record_.name (heap σ' !!! self) = Record_.name (heap σ !!! self)
           ∧ Record_.phones (heap σ' !!! self) = Record_.phones (heap σ !!! self)
           ∧ (∀ l, l ≠ self → heap σ' !!! l = heap σ !!! l)
           ∧ length (heap σ') = length (heap σ)
           ∧ records σ' = records σ).
Proof.
  intros Hlt. split.
  - intros e He. split; [|by apply Birthday_init_Raise in He].
    unfold Record_add_birthday, mbind, M_bind, lift. by rewrite He.
  - intros b Hb. eexists. split_and!.
    + unfold Record_add_birthday, mbind, M_bind, lift, update. by rewrite Hb.
    + simpl. by rewrite list_lookup_total_alter_eq.
    + simpl. by rewrite list_lookup_total_alter_eq.
    + simpl. by rewrite list_lookup_total_alter_eq.
    + intros l Hl. simpl. by rewrite list_lookup_total_alter_ne.
    + simpl. apply length_alter.
    + reflexivity.
Qed.

(** ** AddressBook.add_record and AddressBook.find *)

(** C7. [add_record] never raises; afterwards the book has the record
    under its name and nothing else under that name, the entries under
    other names are the ones it had, and the records themselves are not
    touched.  [find] never raises; it returns the record entered under
    exactly the name asked for, and [None] when there is none. *)
Theorem add_record_overwrites_find_total (σ : store) (record : loc) :
  NoDup (dict_keys (records σ)) →
  let key := Name.value (Record_.name (heap σ !!! record)) in
  (∃ σ', AddressBook_add_record record σ = (Ok (), σ')
         ∧ heap σ' = heap σ
         ∧ NoDup (dict_keys (records σ'))
         ∧ AddressBook_find key σ' = (Ok (Some record), σ')
         ∧ (∀ k l, (k, l) ∈ records σ' ↔ (k = key ∧ l = record) ∨ (k ≠ key ∧ (k, l) ∈ records σ))
         ∧ (∀ k, k ≠ key → AddressBook_find k σ' = (Ok (dict_get k (records σ)), σ')))
  ∧ (∀ name, ∃ found, AddressBook_find name σ = (Ok found, σ)
       ∧ (∀ l, found = Some l ↔ (name, l) ∈ records σ)
       ∧ (found = None ↔ name ∉ dict_keys (records σ))).
Proof.
  intros Hnd key. split.
  - eexists. split_and!.
    + reflexivity.
    + reflexivity.
    + simpl. by apply dict_set_NoDup.
    + unfold AddressBook_find. simpl. by rewrite dict_get_set_eq.
    + intros k l. simpl. by apply dict_set_elem.
    + intros k Hk. unfold AddressBook_find. simpl. by rewrite dict_get_set_ne.
  - intros name. exists (dict_get name (records σ)). split_and!.
    + reflexivity.
    + intros l. split; [apply dict_get_Some_elem | by apply dict_get_elem_NoDup].
    + apply dict_get_None_keys.
Qed.

(** ** Dates *)

Lemma Datetime_new_Ok y m d h mi s us dt :
  Datetime.new y m d h mi s us = Ok dt →
  dt = Datetime.mk y m d h mi s us ∧ Datetime.valid dt = true.
Proof.
  unfold Datetime.new, Datetime.check_date_args, Datetime.check_time_args, Datetime.valid.
  destruct (in_range Datetime.MINYEAR Datetime.MAXYEAR y) eqn:Hy; simpl; [|discriminate].
  destruct (in_range 1 12 m) eqn:Hm; simpl; [|discriminate].
  destruct (in_range 1 (Datetime.days_in_month y m) d) eqn:Hd; simpl; [|discriminate].
  destruct (in_range 0 23 h) eqn:Hh; simpl; [|discriminate].
  destruct (in_range 0 59 mi) eqn:Hmi; simpl; [|discriminate].
  destruct (in_range 0 59 s) eqn:Hs; simpl; [|discriminate].
  destruct (in_range 0 999999 us) eqn:Hus; simpl; [|discriminate].
  intros [= <-]. simpl. by rewrite Hy, Hm, Hd, Hh, Hmi, Hs, Hus.
Qed.

Lemma Datetime_valid_spec dt :
  Datetime.valid dt = true ↔
    1 ≤ Datetime.year dt ≤ 9999 ∧ 1 ≤ Datetime.month dt ≤ 12
    ∧ 1 ≤ Datetime.day dt ≤ Datetime.days_in_month (Datetime.year dt) (Datetime.month dt)
    ∧ 0 ≤ Datetime.hour dt ≤ 23 ∧ 0 ≤ Datetime.minute dt ≤ 59
    ∧ 0 ≤ Datetime.second dt ≤ 59 ∧ 0 ≤ Datetime.microsecond dt ≤ 999999.
Proof.
  unfold Datetime.valid, Datetime.MINYEAR, Datetime.MAXYEAR.
  rewrite !andb_true_iff, !in_range_spec. tauto.
Qed.

Lemma days_before_month_step y m m' :
  1 ≤ m → m < m' → m' ≤ 12 →
  Datetime.days_before_month y m + Datetime.days_in_month y m
  ≤ Datetime.days_before_month y m'.
Proof.
  intros H1 Hlt H12. unfold Datetime.days_before_month, Datetime.days_in_month.
  assert (m = 1 ∨ m = 2 ∨ m = 3 ∨ m = 4 ∨ m = 5 ∨ m = 6 ∨ m = 7 ∨ m = 8 ∨ m = 9
          ∨ m = 10 ∨ m = 11) as Hm by lia.
  assert (m' = 2 ∨ m' = 3 ∨ m' = 4 ∨ m' = 5 ∨ m' = 6 ∨ m' = 7 ∨ m' = 8 ∨ m' = 9
          ∨ m' = 10 ∨ m' = 11 ∨ m' = 12) as Hm' by lia.
  destruct (Datetime.is_leap y);
    destruct_or!; subst m m'; try (exfalso; lia); vm_compute; discriminate.
Qed.

Lemma ymd_to_ord_lt y m d m' d' :
  1 ≤ m ≤ 12 → 1 ≤ m' ≤ 12 → d ≤ Datetime.days_in_month y m → 1 ≤ d' →
  m < m' ∨ (m = m' ∧ d < d') →
  Datetime.ymd_to_ord y m d < Datetime.ymd_to_ord y m' d'.
Proof.
  intros Hm Hm' Hd Hd' [Hlt|[-> Hlt]]; unfold Datetime.ymd_to_ord; [|lia].
  pose proof (days_before_month_step y m m'). lia.
Qed.

Lemma date_before_toordinal a b :
  Datetime.valid a = true → Datetime.valid b = true →
  Datetime.year a = Datetime.year b → date_before a b = true →
  Datetime.toordinal a < Datetime.toordinal b.
Proof.
  rewrite !Datetime_valid_spec. intros Ha Hb Hy Hbefore.
  unfold Datetime.toordinal. rewrite Hy. apply ymd_to_ord_lt; try lia.
  - rewrite <- Hy. lia.
  - unfold date_before in Hbefore. rewrite Hy in Hbefore.
    rewrite Z.ltb_irrefl, Z.eqb_refl in Hbefore. simpl in Hbefore.
    apply orb_true_iff in Hbefore as [H|H]; [left; lia|right].
    apply andb_true_iff in H as [H1 H2]. lia.
Qed.

Lemma sub_days_negative a b :
  Datetime.valid a = true → Datetime.valid b = true →
  Datetime.toordinal a < Datetime.toordinal b →
  Timedelta.days (Datetime.sub a b) < 0.
Proof.
  rewrite !Datetime_valid_spec. intros Ha Hb Hlt.
  unfold Datetime.sub, Timedelta.normalize. simpl.
  assert ((Datetime.microsecond a - Datetime.microsecond b) `div` 1000000 ≤ 0) by
    (apply Z.lt_succ_r, Z.div_lt_upper_bound; lia).
  assert (((Datetime.hour a - Datetime.hour b) * 3600
           + (Datetime.minute a - Datetime.minute b) * 60
           + (Datetime.second a - Datetime.second b)
           + (Datetime.microsecond a - Datetime.microsecond b) `div` 1000000) `div` 86400 ≤ 0) by
    (apply Z.lt_succ_r, Z.div_lt_upper_bound; lia).
  lia.
Qed.

Lemma replace_year_Ok dt y D :
  Datetime.replace_year dt y = Ok D →
  Datetime.valid D = true ∧ Datetime.year D = y
  ∧ Datetime.month D = Datetime.month dt ∧ Datetime.day D = Datetime.day dt.
Proof.
  unfold Datetime.replace_year. intros [-> Hv]%Datetime_new_Ok. by split_and!.
Qed.

Lemma replace_year_feb29 dt y :
  Datetime.month dt = 2 → Datetime.day dt = 29 → Datetime.is_leap y = false →
  ∃ msg, Datetime.replace_year dt y = Raise (ValueError msg).
Proof.
  intros Hm Hd Hleap. unfold Datetime.replace_year, Datetime.new, Datetime.check_date_args.
  rewrite Hm, Hd. destruct (in_range _ _ y); simpl; [|eauto].
  unfold Datetime.days_in_month. rewrite Hleap. simpl. eauto.
Qed.

(** ** The upcoming birthdays *)


Lemma upcoming_loop_elem today h values acc names n :
  upcoming_loop today h values acc = Ok names →
  n ∈ names ↔
    n ∈ acc ∨ ∃ l, l ∈ values ∧ Name.value (Record_.name (h !!! l)) = n ∧ appended today h l.
Proof.
  revert acc. induction values as [|l values IH]; intros acc; cbn [upcoming_loop].
  - intros [= ->]. split; [auto|]. intros [?|(l & Hl & _)]; [done|].
    by apply elem_of_nil in Hl.
  - destruct (Record_.birthday (h !!! l)) as [b|] eqn:Hb.
    + destruct (Datetime.replace_year _ _) as [D|e] eqn:HD; [|discriminate].
      destruct ((0 <=? _) && _) eqn:Hwin; intros Hloop; rewrite (IH _ Hloop);
        [apply andb_true_iff in Hwin; rewrite Z.leb_le, Z.ltb_lt in Hwin
        |apply andb_false_iff in Hwin; rewrite Z.leb_gt, Z.ltb_ge in Hwin].
      * rewrite elem_of_app, list_elem_of_singleton. split.
        -- intros [[?| ->]|(l' & Hl' & Hn & Happ)]; [by left| |].
           ++ right. exists l. split; [left|split; [done|]].
              exists b, D. split; [done|split; [done|lia]].
           ++ right. exists l'. split; [by right|by split].
        -- intros [?|(l' & Hl' & Hn & Happ)]; [by left; left|].
           apply elem_of_cons in Hl' as [-> |Hl']; [left; by right|].
           right. by exists l'.
      * split.
        -- intros [?|(l' & Hl' & Hn & Happ)]; [by left|].
           right. exists l'. split; [by right|by split].
        -- intros [?|(l' & Hl' & Hn & Happ)]; [by left|].
           apply elem_of_cons in Hl' as [-> |Hl']; [|right; by exists l'].
           destruct Happ as (b' & D' & Hb' & HD' & Hdays).
           rewrite Hb in Hb'. injection Hb' as <-. rewrite HD in HD'. injection HD' as <-.
           lia.
    + intros Hloop. rewrite (IH _ Hloop). split.
      * intros [?|(l' & Hl' & Hn & Happ)]; [by left|].
        right. exists l'. split; [by right|by split].
      * intros [?|(l' & Hl' & Hn & Happ)]; [by left|].
        apply elem_of_cons in Hl' as [-> |Hl']; [|right; by exists l'].
        destruct Happ as (b' & D' & Hb' & _). congruence.
Qed.

Lemma upcoming_loop_total today h values acc :
  (∀ l b, l ∈ values → Record_.birthday (h !!! l) = Some b →
          ∃ D, Datetime.replace_year (Birthday.value b) (Datetime.year today) = Ok D) →
  ∃ names, upcoming_loop today h values acc = Ok names.
Proof.
  revert acc. induction values as [|l values IH]; intros acc Hall; simpl; [eauto|].
  assert (∀ acc', ∃ names, upcoming_loop today h values acc' = Ok names) as IH'.
  { intros acc'. apply IH. intros l' b' Hl'. apply Hall. by right. }
  destruct (Record_.birthday (h !!! l)) as [b|] eqn:Hb; [|apply IH'].
  destruct (Hall l b) as [D HD]; [left|done|]. rewrite HD.
  destruct (_ && _); apply IH'.
Qed.

Lemma upcoming_loop_raises today h values acc l b :
  l ∈ values → Record_.birthday (h !!! l) = Some b →
  Datetime.month (Birthday.value b) = 2 → Datetime.day (Birthday.value b) = 29 →
  Datetime.is_leap (Datetime.year today) = false →
  ∃ msg, upcoming_loop today h values acc = Raise (ValueError msg).
Proof.
  intros Hl Hb Hm Hd Hleap. revert acc.
  induction values as [|l0 values IH]; intros acc; [by apply elem_of_nil in Hl|].
  simpl. apply elem_of_cons in Hl as [<- |Hl].
  - rewrite Hb. destruct (replace_year_feb29 _ _ Hm Hd Hleap) as [msg ->]. eauto.
  - destruct (Record_.birthday (h !!! l0)) as [b0|]; [|by apply IH].
    destruct (Datetime.replace_year _ _) as [D|[msg]]; [|eauto].
    destruct (_ && _); by apply IH.
Qed.

Lemma elem_of_dict_values {V} (d : dict V) (v : V) :
  v ∈ dict_values d ↔ ∃ k, (k, v) ∈ d.
Proof.
  unfold dict_values. rewrite list_elem_of_fmap. split.
  - intros ([k v'] & -> & Hin). by exists k.
  - intros [k Hin]. by exists (k, v).
Qed.

(** C9. With a record of the book whose birthday is a 29th of February
    and a current year that is not a leap year, [get_upcoming_birthdays]
    raises the failure of the date construction and returns no list. *)
Theorem leap_day_birthday_raises (σ : store) (today : Datetime.t) (k : pystr) (l : loc)
    (b : Birthday.t) :
  (k, l) ∈ records σ →
  Record_.birthday (heap σ !!! l) = Some b →
  Datetime.month (Birthday.value b) = 2 → Datetime.day (Birthday.value b) = 29 →
  Datetime.is_leap (Datetime.year today) = false →
  ∃ msg, AddressBook_get_upcoming_birthdays today σ = (Raise (ValueError msg), σ).
Proof.
  intros Hin Hb Hm Hd Hleap. unfold AddressBook_get_upcoming_birthdays.
  destruct (upcoming_loop_raises today (heap σ) (dict_values (records σ)) [] l b)
    as [msg ->]; try done.
  - apply elem_of_dict_values. by exists k.
  - by exists msg.
Qed.

(** The names [get_upcoming_birthdays] returns are those of the records
    of the book for which midnight of the birthday in the current year
    is at most seven days after the present moment and not before it:
    the difference is taken to [today] with its time of day. *)
Theorem upcoming_birthdays_names (σ : store) (today : Datetime.t) (names : list pystr)
    (k : pystr) (l : loc) :
  wf_store σ → (k, l) ∈ records σ →
  AddressBook_get_upcoming_birthdays today σ = (Ok names, σ) →
  k ∈ names ↔ appended today (heap σ) l.
Proof.
  intros [Hnd Hwf] Hin. unfold AddressBook_get_upcoming_birthdays. intros [= Hloop].
  rewrite list.Forall_forall in Hwf.
  rewrite (upcoming_loop_elem _ _ _ _ _ k Hloop). split.
  - intros [Hk|(l' & Hl' & Hn & Happ)]; [by apply elem_of_nil in Hk|].
    apply elem_of_dict_values in Hl' as [k' Hin'].
    destruct (Hwf _ Hin') as [_ Hname]. cbn [fst snd] in Hname.
    rewrite Hn in Hname. subst k'.
    pose proof (dict_get_elem_NoDup _ _ _ Hnd Hin) as Hg.
    pose proof (dict_get_elem_NoDup _ _ _ Hnd Hin') as Hg'.
    rewrite Hg in Hg'. by injection Hg' as <-.
  - intros Happ. right. exists l. split; [|split; [|done]].
    + apply elem_of_dict_values. by exists k.
    + by destruct (Hwf _ Hin) as [_ Hname].
Qed.

(** C2. A record of the book whose birthday, taken to the current year,
    is a date before today's is not named by [get_upcoming_birthdays]:
    whatever list the query returns lacks the name, and the query does
    return a list when every birthday of the book exists in the current
    year.  Nothing moves the birthday to the next year. *)
Theorem past_birthday_excluded (σ : store) (today : Datetime.t) (k : pystr) (l : loc)
    (b : Birthday.t) (D : Datetime.t) :
  wf_store σ → Datetime.valid today = true →
  (k, l) ∈ records σ →
  Record_.birthday (heap σ !!! l) = Some b →
  Datetime.replace_year (Birthday.value b) (Datetime.year today) = Ok D →
  date_before D today = true →
  (∀ names, AddressBook_get_upcoming_birthdays today σ = (Ok names, σ) → k ∉ names)
  ∧ ((∀ k' l' b', (k', l') ∈ records σ → Record_.birthday (heap σ !!! l') = Some b' →
        ∃ D', Datetime.replace_year (Birthday.value b') (Datetime.year today) = Ok D') →
     ∃ names, AddressBook_get_upcoming_birthdays today σ = (Ok names, σ) ∧ k ∉ names).
Proof.
  intros [Hnd Hwf] Htoday Hin Hb HD Hbefore.
  assert (∀ names, AddressBook_get_upcoming_birthdays today σ = (Ok names, σ) → k ∉ names)
    as Hexcl.
  { unfold AddressBook_get_upcoming_birthdays. intros names [= Hloop] Hk.
    rewrite (upcoming_loop_elem _ _ _ _ _ k Hloop) in Hk.
    destruct Hk as [Hk|(l' & Hl' & Hn & b' & D' & Hb' & HD' & Hdays)];
      [by apply elem_of_nil in Hk|].
    apply elem_of_dict_values in Hl' as [k' Hin'].
    rewrite list.Forall_forall in Hwf.
    destruct (Hwf _ Hin') as [_ Hname]. cbn [fst snd] in Hname.
    rewrite Hn in Hname. subst k'.
    pose proof (dict_get_elem_NoDup _ _ _ Hnd Hin) as Hg.
    pose proof (dict_get_elem_NoDup _ _ _ Hnd Hin') as Hg'.
    rewrite Hg in Hg'. injection Hg' as <-.
    rewrite Hb in Hb'. injection Hb' as <-. rewrite HD in HD'. injection HD' as <-.
    destruct (replace_year_Ok _ _ _ HD) as (HvD & Hy & _).
    pose proof (date_before_toordinal D today HvD Htoday Hy Hbefore) as Hord.
    pose proof (sub_days_negative D today HvD Htoday Hord). lia. }
  split; [done|]. intros Hall.
  destruct (upcoming_loop_total today (heap σ) (dict_values (records σ)) []) as [names Hloop].
  { intros l' b' [k' Hin']%elem_of_dict_values Hb'. by apply (Hall k' l' b'). }
  exists names. assert (AddressBook_get_upcoming_birthdays today σ = (Ok names, σ)) as Hq
    by (unfold AddressBook_get_upcoming_birthdays; by rewrite Hloop).
  split; [done|]. by apply Hexcl.
Qed.

(** ** Decimal text *)

Lemma dec_digits_1 f n : 0 ≤ n < 10 → dec_digits (S f) n = [chr "0" + n].
Proof.
  intros Hn. simpl. destruct (Z.ltb_spec n 10); [|lia].
  by rewrite Z.mod_small by lia.
Qed.

Lemma dec_digits_S f n :
  10 ≤ n → dec_digits (S f) n = dec_digits f (n `div` 10) ++ [chr "0" + n `mod` 10].
Proof. intros Hn. simpl. by destruct (Z.ltb_spec n 10); [lia|]. Qed.

Lemma dec_digits_2 f n :
  (2 ≤ f)%nat → 10 ≤ n < 100 →
  dec_digits f n = [chr "0" + n `div` 10; chr "0" + n `mod` 10].
Proof.
  intros Hf Hn. destruct f as [|f]; [lia|]. destruct f as [|f]; [lia|].
  rewrite dec_digits_S by lia. rewrite dec_digits_1; [done|].
  split; [apply Z.div_pos; lia | apply Z.div_lt_upper_bound; lia].
Qed.

Lemma dec_digits_3 f n :
  (3 ≤ f)%nat → 100 ≤ n < 1000 →
  dec_digits f n = [chr "0" + n `div` 100; chr "0" + (n `div` 10) `mod` 10; chr "0" + n `mod` 10].
Proof.
  intros Hf Hn. destruct f as [|f]; [lia|].
  rewrite dec_digits_S by lia. rewrite dec_digits_2; [|lia|].
  - rewrite Z.div_div by lia. done.
  - split; [apply Z.div_le_lower_bound; lia | apply Z.div_lt_upper_bound; lia].
Qed.

Lemma dec_digits_4 f n :
  (4 ≤ f)%nat → 1000 ≤ n < 10000 →
  dec_digits f n = [chr "0" + n `div` 1000; chr "0" + (n `div` 100) `mod` 10;
                    chr "0" + (n `div` 10) `mod` 10; chr "0" + n `mod` 10].
Proof.
  intros Hf Hn. destruct f as [|f]; [lia|].
  rewrite dec_digits_S by lia. rewrite dec_digits_3; [|lia|].
  - rewrite !Z.div_div by lia. done.
  - split; [apply Z.div_le_lower_bound; lia | apply Z.div_lt_upper_bound; lia].
Qed.

Lemma str_int_fuel n k : 2 ^ k ≤ n → 0 ≤ k → (Z.to_nat k < S (Z.to_nat (Z.log2 n)))%nat.
Proof.
  intros Hn Hk. assert (k ≤ Z.log2 n); [|lia].
  apply Z.log2_le_pow2; lia.
Qed.

Lemma str_int_digit n : 0 ≤ n < 10 → str_int n = [chr "0" + n].
Proof.
  intros Hn. unfold str_int. destruct (Z.ltb_spec n 0); [lia|]. by apply dec_digits_1.
Qed.

Lemma str_int_2 n :
  10 ≤ n < 100 → str_int n = [chr "0" + n `div` 10; chr "0" + n `mod` 10].
Proof.
  intros Hn. unfold str_int. destruct (Z.ltb_spec n 0); [lia|].
  apply dec_digits_2; [|done]. pose proof (str_int_fuel n 3). lia.
Qed.

Lemma str_int_3 n :
  100 ≤ n < 1000 →
  str_int n = [chr "0" + n `div` 100; chr "0" + (n `div` 10) `mod` 10; chr "0" + n `mod` 10].
Proof.
  intros Hn. unfold str_int. destruct (Z.ltb_spec n 0); [lia|].
  apply dec_digits_3; [|done]. pose proof (str_int_fuel n 6). lia.
Qed.

Lemma str_int_4 n :
  1000 ≤ n < 10000 →
  str_int n = [chr "0" + n `div` 1000; chr "0" + (n `div` 100) `mod` 10;
               chr "0" + (n `div` 10) `mod` 10; chr "0" + n `mod` 10].
Proof.
  intros Hn. unfold str_int. destruct (Z.ltb_spec n 0); [lia|].
  apply dec_digits_4; [|done]. pose proof (str_int_fuel n 9). lia.
Qed.

(** Two digits, filled with a zero, give back the two digits. *)
Lemma zfill_2_str_int c1 c2 :
  Unicode.ascii_digit c1 = true → Unicode.ascii_digit c2 = true →
  zfill 2 (str_int (10 * digit_value c1 + digit_value c2)) = [c1; c2].
Proof.
  rewrite !ascii_digit_spec. unfold digit_value. change (chr "0") with 48.
  intros H1 H2. destruct (decide (c1 = 48)) as [->|Hne].
  - rewrite str_int_digit by lia. unfold zfill. simpl. change (chr "0") with 48.
    f_equal. f_equal. Z.div_mod_to_equations; lia.
  - rewrite str_int_2 by lia. unfold zfill. simpl. change (chr "0") with 48.
    f_equal; [|f_equal]; Z.div_mod_to_equations; lia.
Qed.

(** Four digits, filled with zeros, give back the four digits; without
    the filling they do when the first is not a zero. *)
Lemma str_int_year (pad_year : bool) c1 c2 c3 c4 :
  Unicode.ascii_digit c1 = true → Unicode.ascii_digit c2 = true →
  Unicode.ascii_digit c3 = true → Unicode.ascii_digit c4 = true →
  let y := 1000 * digit_value c1 + 100 * digit_value c2
           + 10 * digit_value c3 + digit_value c4 in
  pad_year = true ∨ 1000 ≤ y →
  (if pad_year then zfill 4 (str_int y) else str_int y) = [c1; c2; c3; c4].
Proof.
  intros H1 H2 H3 H4 y Hy. apply ascii_digit_spec in H1, H2, H3, H4.
  unfold digit_value in y. change (chr "0") with 48 in y.
  assert (1000 ≤ y → str_int y = [c1; c2; c3; c4]) as H1000.
  { intros Hge. rewrite str_int_4 by (unfold y; lia). change (chr "0") with 48.
    unfold y. f_equal; [|f_equal; [|f_equal; [|f_equal]]]; (Z.div_mod_to_equations; lia). }
  destruct (decide (1000 ≤ y)) as [Hge|Hlt].
  - rewrite (H1000 Hge). by destruct pad_year.
  - destruct Hy as [->|?]; [|lia].
    assert (c1 = 48) as -> by (unfold y in Hlt; lia).
    destruct (decide (100 ≤ y)) as [Hge|Hlt2].
    { rewrite str_int_3 by (unfold y in *; lia). unfold zfill. simpl.
      change (chr "0") with 48. unfold y.
      f_equal. f_equal; [|f_equal; [|f_equal]]; (Z.div_mod_to_equations; lia). }
    assert (c2 = 48) as -> by (unfold y in Hlt2; lia).
    destruct (decide (10 ≤ y)) as [Hge|Hlt3].
    { rewrite str_int_2 by (unfold y in *; lia). unfold zfill. simpl.
      change (chr "0") with 48. unfold y.
      f_equal. f_equal. f_equal; [|f_equal]; (Z.div_mod_to_equations; lia). }
    assert (c3 = 48) as -> by (unfold y in Hlt3; lia).
    rewrite str_int_digit by (unfold y in *; lia). unfold zfill. simpl.
    change (chr "0") with 48. unfold y. do 4 f_equal. lia.
Qed.

(** ** Parsing a birthday *)

Lemma lstrip_blank_digit c r : Unicode.ascii_digit c = true → lstrip_blank (c :: r) = c :: r.
Proof.
  intros Hc%ascii_digit_spec. simpl. destruct (Z.eqb_spec c (chr " ")) as [->|]; [|done].
  vm_compute in Hc. by destruct Hc as [[] _].
Qed.

Lemma py_int_2 c1 c2 :
  Unicode.ascii_digit c1 = true → Unicode.ascii_digit c2 = true →
  py_int [c1; c2] = 10 * digit_value c1 + digit_value c2.
Proof.
  intros H1 H2. unfold py_int. rewrite lstrip_blank_digit by done. cbn [foldl].
  rewrite !ascii_digit_to_decimal by done. unfold digit_value, default, id.
  change (chr "0") with 48. lia.
Qed.

Lemma py_int_4 c1 c2 c3 c4 :
  Unicode.ascii_digit c1 = true → Unicode.ascii_digit c2 = true →
  Unicode.ascii_digit c3 = true → Unicode.ascii_digit c4 = true →
  py_int [c1; c2; c3; c4] =
    1000 * digit_value c1 + 100 * digit_value c2 + 10 * digit_value c3 + digit_value c4.
Proof.
  intros H1 H2 H3 H4. unfold py_int. rewrite lstrip_blank_digit by done. cbn [foldl].
  rewrite !ascii_digit_to_decimal by done. unfold digit_value, default, id.
  change (chr "0") with 48. lia.
Qed.

Lemma chr_range_spec lo hi c :
  Datetime.chr_range lo hi c = true ↔ chr lo ≤ c ≤ chr hi.
Proof. apply in_range_spec. Qed.


Lemma re_d_ascii {R} c1 c2 r (k : pystr → pystr → option R) x :
  Unicode.ascii_digit c1 = true → Unicode.ascii_digit c2 = true →
  1 ≤ 10 * digit_value c1 + digit_value c2 ≤ 31 →
  k [c1; c2] r = Some x →
  Datetime.re_d (c1 :: c2 :: r) k = Some x.
Proof.
  intros H1 H2 Hd Hk. pose proof (ascii_digit_isdecimal _ H2) as Hdec.
  apply ascii_digit_spec in H1, H2. unfold digit_value in Hd. change (chr "0") with 48 in Hd.
  unfold Datetime.re_d, Datetime.seq2, Datetime.seq1, Datetime.orelse.
  assert (c1 = 48 ∨ c1 = 49 ∨ c1 = 50 ∨ c1 = 51) as Hc1 by lia.
  destruct Hc1 as [->|[->|[->| ->]]].
  - bool_fact (Datetime.is_chr "3" 48) false.
    bool_fact (Datetime.chr_range "1" "2" 48) false.
    bool_fact (Datetime.is_chr "0" 48) true.
    assert (Datetime.chr_range "1" "9" c2 = true) as ->
      by (apply chr_range_spec; change (chr "1") with 49; change (chr "9") with 57; lia).
    cbn [andb]. by rewrite Hk.
  - bool_fact (Datetime.is_chr "3" 49) false.
    bool_fact (Datetime.chr_range "1" "2" 49) true.
    rewrite Hdec. cbn [andb]. by rewrite Hk.
  - bool_fact (Datetime.is_chr "3" 50) false.
    bool_fact (Datetime.chr_range "1" "2" 50) true.
    rewrite Hdec. cbn [andb]. by rewrite Hk.
  - bool_fact (Datetime.is_chr "3" 51) true.
    assert (Datetime.chr_range "0" "1" c2 = true) as ->
      by (apply chr_range_spec; change (chr "0") with 48; change (chr "1") with 49; lia).
    cbn [andb]. by rewrite Hk.
Qed.

Lemma re_m_ascii {R} c1 c2 r (k : pystr → pystr → option R) x :
  Unicode.ascii_digit c1 = true → Unicode.ascii_digit c2 = true →
  1 ≤ 10 * digit_value c1 + digit_value c2 ≤ 12 →
  k [c1; c2] r = Some x →
  Datetime.re_m (c1 :: c2 :: r) k = Some x.
Proof.
  intros H1 H2 Hd Hk.
  apply ascii_digit_spec in H1, H2. unfold digit_value in Hd. change (chr "0") with 48 in Hd.
  unfold Datetime.re_m, Datetime.seq2, Datetime.seq1, Datetime.orelse.
  assert (c1 = 48 ∨ c1 = 49) as Hc1 by lia.
  destruct Hc1 as [->| ->].
  - bool_fact (Datetime.is_chr "1" 48) false.
    bool_fact (Datetime.is_chr "0" 48) true.
    assert (Datetime.chr_range "1" "9" c2 = true) as ->
      by (apply chr_range_spec; change (chr "1") with 49; change (chr "9") with 57; lia).
    cbn [andb]. by rewrite Hk.
  - bool_fact (Datetime.is_chr "1" 49) true.
    assert (Datetime.chr_range "0" "2" c2 = true) as ->
      by (apply chr_range_spec; change (chr "0") with 48; change (chr "2") with 50; lia).
    cbn [andb]. by rewrite Hk.
Qed.

Lemma re_Y_ascii {R} c1 c2 c3 c4 r (k : pystr → pystr → option R) :
  Unicode.ascii_digit c1 = true → Unicode.ascii_digit c2 = true →
  Unicode.ascii_digit c3 = true → Unicode.ascii_digit c4 = true →
  Datetime.re_Y (c1 :: c2 :: c3 :: c4 :: r) k = k [c1; c2; c3; c4] r.
Proof.
  intros H1 H2 H3 H4. unfold Datetime.re_Y.
  by rewrite !ascii_digit_isdecimal by done.
Qed.

Lemma is_leap_leap_year y : Datetime.is_leap y = leap_year y.
Proof.
  unfold Datetime.is_leap, leap_year.
  destruct (Z.eqb_spec (y `mod` 4) 0), (Z.eqb_spec (y `mod` 100) 0),
    (Z.eqb_spec (y `mod` 400) 0); try reflexivity;
    exfalso; Z.div_mod_to_equations; lia.
Qed.

Lemma days_in_month_length y m :
  1 ≤ m ≤ 12 → Datetime.days_in_month y m = month_length y m.
Proof.
  intros Hm. unfold Datetime.days_in_month, month_length. rewrite is_leap_leap_year.
  assert (m = 1 ∨ m = 2 ∨ m = 3 ∨ m = 4 ∨ m = 5 ∨ m = 6 ∨ m = 7 ∨ m = 8 ∨ m = 9
          ∨ m = 10 ∨ m = 11 ∨ m = 12) as Hcases by lia.
  destruct_or!; subst m; reflexivity.
Qed.

Lemma read_DDMMYYYY_Some s d m y :
  read_DDMMYYYY s = Some (d, m, y) →
  ∃ d1 d2 m1 m2 y1 y2 y3 y4,
    s = [d1; d2; chr "."; m1; m2; chr "."; y1; y2; y3; y4]
    ∧ Forall (λ c, Unicode.ascii_digit c = true) [d1; d2; m1; m2; y1; y2; y3; y4]
    ∧ d = 10 * digit_value d1 + digit_value d2
    ∧ m = 10 * digit_value m1 + digit_value m2
    ∧ y = 1000 * digit_value y1 + 100 * digit_value y2 + 10 * digit_value y3 + digit_value y4.
Proof.
  unfold read_DDMMYYYY.
  destruct s as [|d1 [|d2 [|p1 [|m1 [|m2 [|p2 [|y1 [|y2 [|y3 [|y4 [|]]]]]]]]]]];
    try discriminate.
  destruct (_ && _) eqn:Hb; [|discriminate]. intros [= <- <- <-].
  apply andb_true_iff in Hb as [Hb Hp2]. apply andb_true_iff in Hb as [Hb Hp1].
  apply Z.eqb_eq in Hp1 as ->, Hp2 as ->.
  exists d1, d2, m1, m2, y1, y2, y3, y4. split_and!; try done.
  cbn [forallb] in Hb. rewrite !andb_true_iff in Hb.
  destruct Hb as (? & ? & ? & ? & ? & ? & ? & ? & _). by repeat constructor.
Qed.

Lemma strptime_DDMMYYYY s d m y :
  read_DDMMYYYY s = Some (d, m, y) → real_date y m d = true →
  Datetime.strptime_dmY s = Ok (Datetime.mk y m d 0 0 0 0).
Proof.
  intros (d1 & d2 & m1 & m2 & y1 & y2 & y3 & y4 & -> & Hdig & Hd & Hm & Hy)%read_DDMMYYYY_Some
         Hreal.
  repeat (apply list.Forall_cons in Hdig as [? Hdig]); cbv beta in *.
  unfold real_date in Hreal. rewrite !andb_true_iff, !in_range_spec, Z.leb_le in Hreal.
  destruct Hreal as [[Hy1 Hm12] Hdm].
  assert (month_length y m ≤ 31) as Hlen.
  { unfold month_length. destruct (m =? 2); [destruct (leap_year y)|destruct (_ || _)]; lia. }
  unfold Datetime.strptime_dmY.
  assert (Datetime.match_dmY [d1; d2; chr "."; m1; m2; chr "."; y1; y2; y3; y4]
          = Some ([d1; d2], [m1; m2], [y1; y2; y3; y4], [])) as ->.
  { unfold Datetime.match_dmY. apply re_d_ascii; [done|done|lia|].
    unfold Datetime.re_dot at 1. bool_fact (Datetime.is_chr "." (chr ".")) true.
    apply re_m_ascii; [done|done|lia|].
    unfold Datetime.re_dot at 1. bool_fact (Datetime.is_chr "." (chr ".")) true.
    by rewrite re_Y_ascii. }
  rewrite bool_decide_eq_true_2 by done. cbn [negb].
  rewrite !py_int_2, py_int_4 by done. rewrite <- Hd, <- Hm, <- Hy.
  unfold Datetime.new, Datetime.check_date_args.
  assert (y ≤ 9999) as Hy9.
  { rewrite Hy. unfold digit_value. change (chr "0") with 48.
    repeat match goal with H : Unicode.ascii_digit _ = true |- _ =>
      apply ascii_digit_spec in H end. lia. }
  assert (in_range Datetime.MINYEAR Datetime.MAXYEAR y = true) as ->
    by (apply in_range_spec; unfold Datetime.MINYEAR, Datetime.MAXYEAR; lia).
  assert (in_range 1 12 m = true) as -> by (by apply in_range_spec).
  assert (in_range 1 (Datetime.days_in_month y m) d = true) as ->
    by (apply in_range_spec; by rewrite days_in_month_length).
  reflexivity.
Qed.

Lemma strftime_DDMMYYYY pad_year s d m y :
  read_DDMMYYYY s = Some (d, m, y) → pad_year = true ∨ 1000 ≤ y →
  Datetime.strftime_dmY pad_year (Datetime.mk y m d 0 0 0 0) = s.
Proof.
  intros (d1 & d2 & m1 & m2 & y1 & y2 & y3 & y4 & -> & Hdig & -> & -> & ->)%read_DDMMYYYY_Some
         Hpad.
  repeat (apply list.Forall_cons in Hdig as [? Hdig]); cbv beta in *.
  unfold Datetime.strftime_dmY. cbn [Datetime.day Datetime.month Datetime.year].
  rewrite !zfill_2_str_int by done. rewrite str_int_year by done. reflexivity.
Qed.

(** Where the year is written with its leading zeros, or has none, a
    birthday in the shape [DD.MM.YYYY] that names a date of the calendar
    is accepted, and the record it is stored in shows it back as it was
    typed. *)
Theorem Birthday_round_trip (pad_year : bool) (s : pystr) (d m y : Z) (σ : store)
    (self : loc) :
  read_DDMMYYYY s = Some (d, m, y) → real_date y m d = true →
  pad_year = true ∨ 1000 ≤ y →
  (self < length (heap σ))%nat →
  ∃ b σ', Birthday.init s = Ok b
          ∧ Record_add_birthday self s σ = (Ok (), σ')
          ∧ Record_show_birthday pad_year self σ' = (Ok s, σ').
Proof.
  intros Hread Hreal Hpad Hlt.
  pose proof (strptime_DDMMYYYY _ _ _ _ Hread Hreal) as Hparse.
  assert (Birthday.init s = Ok (Birthday.mk (Datetime.mk y m d 0 0 0 0))) as Hinit
    by (unfold Birthday.init; by rewrite Hparse).
  eexists _, _. split_and!; [done| |].
  - unfold Record_add_birthday, mbind, M_bind, lift, update. by rewrite Hinit.
  - unfold Record_show_birthday, mbind, M_bind, deref. cbn [heap].
    rewrite list_lookup_total_alter_eq by done.
    cbn [Record_.with_birthday Record_.birthday Birthday.value].
    unfold mret, M_ret. by rewrite (strftime_DDMMYYYY _ _ _ _ _ Hread Hpad).
Qed.

(** C1, at the input on which the code departs from it.  On 10 June 2024
    at noon a contact born on a 10 June has her birthday today, zero
    whole days ahead of today's date, and is not returned: [today]
    carries the time of day, so the difference to midnight of the
    birthday is half a day short of zero and its [days] are -1.  At the
    same moment a contact born on a 17 June, seven days ahead of today's
    date, is returned. *)
Theorem birthday_today_not_returned_at_noon :
  let today := Datetime.mk 2024 6 10 12 0 0 0 in
  let D := Datetime.mk 2024 6 10 0 0 0 0 in
  let D7 := Datetime.mk 2024 6 17 0 0 0 0 in
  Datetime.valid today = true
  ∧ (Record_.birthday <$> heap (book_of_ann (lit "10.06.1990")) !! 0%nat)
      = Some (Some (Birthday.mk (Datetime.mk 1990 6 10 0 0 0 0)))
  ∧ Datetime.replace_year (Datetime.mk 1990 6 10 0 0 0 0) (Datetime.year today) = Ok D
  ∧ Datetime.toordinal D - Datetime.toordinal today = 0
  ∧ Timedelta.days (Datetime.sub D today) = -1
  ∧ AddressBook_get_upcoming_birthdays today (book_of_ann (lit "10.06.1990"))
      = (Ok [], book_of_ann (lit "10.06.1990"))
  ∧ Datetime.toordinal D7 - Datetime.toordinal today = 7
  ∧ AddressBook_get_upcoming_birthdays today (book_of_ann (lit "17.06.1990"))
      = (Ok [lit "Ann"], book_of_ann (lit "17.06.1990")).
Proof. vm_compute. repeat split. Qed.

(** C5, at the input on which the code departs from it.  Where the C
    library writes the year as a plain number, the birthday
    [02.01.0999] is accepted and shown back as [02.01.999]. *)
Theorem show_birthday_drops_leading_zeros_of_year :
  let s := lit "02.01.0999" in
  let σ := book_of_ann s in
  Birthday.init s = Ok (Birthday.mk (Datetime.mk 999 1 2 0 0 0 0))
  ∧ Record_.birthday <$> heap σ !! 0%nat = Some (Some (Birthday.mk (Datetime.mk 999 1 2 0 0 0 0)))
  ∧ Record_show_birthday false 0 σ = (Ok (lit "02.01.999"), σ)
  ∧ lit "02.01.999" ≠ s.
Proof. vm_compute. repeat split. discriminate. Qed.

(** * Properties of the rest of the program *)

(** ** Splitting the input line *)


Lemma split_from_tokens cur s :
  Forall (λ c, py_isspace c = false) cur → Forall is_token (split_from cur s).
Proof.
  revert cur. induction s as [|c s IH]; intros cur Hcur; simpl.
  - case_bool_decide; [constructor|]. by repeat constructor.
  - destruct (py_isspace c) eqn:Hc.
    + case_bool_decide; [by apply IH|]. constructor; [done|by apply IH].
    + apply IH. apply Forall_app. split; [done|]. by repeat constructor.
Qed.

Lemma split_from_concat (cur s : list Z) :
  concat (split_from cur s) = cur ++ filter (λ c, py_isspace c = false) s.
Proof.
  unfold pystr in *.
  revert cur. induction s as [|c s IH]; intros cur; cbn [split_from].
  - rewrite filter_nil. case_bool_decide; subst; simpl; by rewrite ?app_nil_r.
  - rewrite filter_cons. destruct (py_isspace c) eqn:Hc.
    + rewrite decide_False by done.
      case_bool_decide; subst; simpl; by rewrite IH.
    + rewrite decide_True by done. rewrite IH. by rewrite <- (assoc_L (++)).
Qed.

Lemma split_from_token cur t s :
  Forall (λ c, py_isspace c = false) t → split_from cur (t ++ s) = split_from (cur ++ t) s.
Proof.
  revert cur. induction t as [|c t IH]; intros cur Ht; simpl.
  - by rewrite app_nil_r.
  - apply list.Forall_cons in Ht as [Hc Ht]. rewrite Hc. rewrite IH by done.
    by rewrite <- (assoc_L (++)).
Qed.

Lemma str_join_cons sep x items :
  items ≠ [] → str_join sep (x :: items) = x ++ sep ++ str_join sep items.
Proof. by destruct items. Qed.

Lemma str_join_snoc sep items x :
  str_join sep (items ++ [x]) =
    if bool_decide (items = []) then x else str_join sep items ++ sep ++ x.
Proof.
  induction items as [|y items IH]; [done|].
  rewrite bool_decide_eq_false_2 by done.
  change ((y :: items) ++ [x]) with (y :: (items ++ [x])).
  rewrite str_join_cons by (by destruct items). rewrite IH.
  destruct items as [|z items]; simpl; [done|].
  by rewrite <- !(assoc_L (++)).
Qed.

Lemma str_split_nil (s : list Z) :
  str_split s = [] ↔ Forall (λ c, py_isspace c = true) s.
Proof.
  unfold str_split.
  pose proof (split_from_tokens [] s (Forall_nil_2 _)) as Htok.
  pose proof (split_from_concat [] s) as Hcat. simpl in Hcat.
  split.
  - intros Hnil. rewrite Hnil in Hcat. simpl in Hcat.
    apply list.Forall_forall. intros c Hc.
    destruct (py_isspace c) eqn:Hsp; [done|].
    assert (c ∈ filter (λ c, py_isspace c = false) s) as Hin
      by (by apply list_elem_of_filter).
    rewrite <- Hcat in Hin. by apply elem_of_nil in Hin.
  - intros Hall. destruct (split_from [] s) as [|t ts]; [done|].
    apply list.Forall_cons in Htok as [[Hne Ht] _].
    destruct t as [|c t]; [done|].
    assert (c ∈ filter (λ c, py_isspace c = false) s) as Hin
      by (rewrite <- Hcat; simpl; left).
    apply list_elem_of_filter in Hin as [Hc Hin].
    rewrite list.Forall_forall in Hall. specialize (Hall c Hin). congruence.
Qed.


(** Tokens joined by single blanks are read back as they were. *)
Theorem parse_input_join (tokens : list pystr) :
  Forall is_token tokens → parse_input (str_join (lit " ") tokens) = tokens.
Proof.
  unfold parse_input, str_split. induction tokens as [|t tokens IH]; [done|].
  intros [[Hne Ht] Htoks]%list.Forall_cons.
  destruct tokens as [|t' tokens].
  - simpl. rewrite <- (app_nil_r t) at 1. rewrite split_from_token by done. simpl.
    by rewrite bool_decide_eq_false_2.
  - rewrite str_join_cons by done. rewrite split_from_token by done.
    change (lit " " ++ str_join (lit " ") (t' :: tokens))
      with (32 :: str_join (lit " ") (t' :: tokens)).
    cbn [split_from app]. change (py_isspace 32) with true. cbn iota.
    rewrite bool_decide_eq_false_2 by done. by rewrite IH.
Qed.

(** ** Changing a phone *)

Lemma change_phone_loop_valid record pre ps old new p σ :
  Record_.phones (heap σ !!! record) = pre ++ ps →
  old ∉ Phone.value <$> pre →
  old ∈ Phone.value <$> ps →
  Phone.init new = Ok p →
  change_phone_loop record ps old new σ =
    (Ok (Some (lit "Phone number updated.")),
     mkStore (alter (λ r, Record_.with_phones (Record_.phones r ++ [p]) r) record
                (alter (Record_.with_phones (without_first old (pre ++ ps))) record (heap σ)))
             (records σ)).
Proof.
  revert pre. induction ps as [|q ps IH]; intros pre Hphones Hpre Hin Hnew.
  - by apply elem_of_nil in Hin.
  - simpl. case_bool_decide as Hq.
    + unfold mbind at 1 2 3 4, M_bind, deref, lift, update. rewrite Hphones.
      rewrite list_remove_middle.
      * rewrite (Record_add_phone_Ok _ _ _ _ Hnew).
        rewrite without_first_app by done. simpl.
        by rewrite bool_decide_eq_true_2.
      * intros Hq'. apply Hpre. apply list_elem_of_fmap. by exists q.
    + apply elem_of_cons in Hin as [?|Hin]; [congruence|].
      specialize (IH (pre ++ [q])). rewrite <- (assoc_L (++)) in IH. simpl in IH.
      apply IH; [done| |done|done].
      rewrite fmap_app. simpl. rewrite not_elem_of_app, list_elem_of_singleton.
      split; [done | congruence].
Qed.

(** [change_phone] with an old phone the contact has and a new phone that
    validates answers "Phone number updated."; the contact keeps its other
    phones in their order, loses the first occurrence of the old one and
    gets the new one at the end of the list, not at the place of the old
    one.  Nothing else changes. *)
Theorem change_phone_moves_to_end (σ : store) (name old_phone new_phone : pystr)
    (record : loc) (p : Phone.t) :
  dict_get name (records σ) = Some record →
  (record < length (heap σ))%nat →
  old_phone ∈ Phone.value <$> Record_.phones (heap σ !!! record) →
  Phone.init new_phone = Ok p →
  ∃ σ', change_phone [name; old_phone; new_phone] σ = (Ok (lit "Phone number updated."), σ')
        ∧ Record_.phones (heap σ' !!! record) =
            without_first old_phone (Record_.phones (heap σ !!! record)) ++ [p]
        ∧ length (Record_.phones (heap σ' !!! record)) =
            length (Record_.phones (heap σ !!! record))
        ∧ Record_.name (heap σ' !!! record) = Record_.name (heap σ !!! record)
        ∧ Record_.birthday (heap σ' !!! record) = Record_.birthday (heap σ !!! record)
        ∧ (∀ l, l ≠ record → heap σ' !!! l = heap σ !!! l)
        ∧ length (heap σ') = length (heap σ)
        ∧ records σ' = records σ.
Proof.
  intros Hget Hlt Hold Hnew.
  assert (∀ f g : Record_.t → Record_.t,
            alter f record (alter g record (heap σ)) !!! record = f (g (heap σ !!! record)))
    as Halter.
  { intros f g. rewrite list_lookup_total_alter_eq by (by rewrite length_alter).
    by rewrite list_lookup_total_alter_eq. }
  eexists. split_and!.
  - unfold change_phone, input_error, change_phone_func, AddressBook_find.
    unfold mbind at 1 2 3, M_bind, deref. rewrite Hget.
    rewrite (change_phone_loop_valid record [] _ old_phone new_phone p σ);
      [reflexivity | reflexivity | apply not_elem_of_nil | done | done].
  - simpl. by rewrite Halter.
  - simpl. rewrite Halter. simpl. rewrite length_app. simpl.
    rewrite <- (without_first_length _ _ Hold). lia.
  - simpl. by rewrite Halter.
  - simpl. by rewrite Halter.
  - intros l Hl. simpl. by rewrite !list_lookup_total_alter_ne.
  - simpl. by rewrite !length_alter.
  - reflexivity.
Qed.

(** ** Adding a contact with a phone that does not validate *)

(** [add_contact] with a phone that is not empty and does not validate
    answers with the message of the failure.  For a name of the book the
    store is left as it was; for a new name the record has been made and
    entered in the book before the phone is refused, and it stays there
    without a phone. *)
Theorem add_contact_refused_phone (σ : store) (name phone : pystr) (rest : list pystr)
    (e : exn) :
  Phone.init phone = Raise e → phone ≠ [] →
  str_exn e = lit "Phone number must be 10 digits."
  ∧ (∀ record, dict_get name (records σ) = Some record →
       add_contact (name :: phone :: rest) σ = (Ok (str_exn e), σ))
  ∧ (dict_get name (records σ) = None →
       ∃ σ', add_contact (name :: phone :: rest) σ = (Ok (str_exn e), σ')
             ∧ heap σ' = heap σ ++ [Record_.mk (Name.mk name) [] None]
             ∧ records σ' = records σ ++ [(name, length (heap σ))]
             ∧ dict_get name (records σ') = Some (length (heap σ))).
Proof.
  intros He Hne. split_and!.
  - by rewrite (Phone_init_Raise _ _ He).
  - intros record Hget.
    unfold add_contact, input_error, add_contact_func, AddressBook_find.
    unfold mbind at 1 2 3, M_bind, mret, M_ret. rewrite Hget.
    rewrite bool_decide_eq_false_2 by done.
    by rewrite (Record_add_phone_Raise _ _ _ _ He).
  - intros Hget. eexists. split_and!.
    + unfold add_contact, input_error, add_contact_func, AddressBook_find,
        AddressBook_add_record, Record_init, Name.init.
      unfold_M. rewrite Hget. simpl.
      rewrite bool_decide_eq_false_2 by done.
      rewrite (Record_add_phone_Raise _ _ _ _ He). simpl.
      rewrite list_lookup_total_middle by done. simpl.
      rewrite (dict_set_absent _ _ _ Hget). reflexivity.
    + reflexivity.
    + reflexivity.
    + simpl. by apply dict_get_elem_NoDup_app_new.
Qed.

(** ** The stores the commands build *)

Lemma valid_store_alter σ l f :
  valid_store σ →
  (∀ r, valid_record r → valid_record (f r) ∧ Record_.name (f r) = Record_.name r) →
  valid_store (mkStore (alter f l (heap σ)) (records σ)).
Proof.
  intros [[Hnd Hwf] Hrec] Hf. split; [split|]; cbn [heap records].
  - done.
  - rewrite list.Forall_forall in Hwf. apply list.Forall_forall. intros [k l'] Hin.
    destruct (Hwf _ Hin) as [Hlt Hname]. cbn [fst snd] in *.
    rewrite length_alter. split; [done|].
    destruct (decide (l = l')) as [->|Hne].
    + rewrite list_lookup_total_alter_eq by done.
      destruct (Hf (heap σ !!! l')) as [_ ->]; [|done].
      by apply Forall_lookup_total_1.
    + by rewrite list_lookup_total_alter_ne.
  - apply Forall_alter; [done|]. intros r _ Hr. by apply Hf.
Qed.

Lemma valid_store_new σ name :
  valid_store σ → dict_get name (records σ) = None →
  valid_store (mkStore (heap σ ++ [Record_.mk (Name.mk name) [] None])
                       (dict_set name (length (heap σ)) (records σ))).
Proof.
  intros [[Hnd Hwf] Hrec] Hget. split; [split|]; cbn [heap records].
  - by apply dict_set_NoDup.
  - rewrite (dict_set_absent _ _ _ Hget). apply Forall_app. split.
    + rewrite list.Forall_forall in Hwf. apply list.Forall_forall. intros [k l'] Hin.
      destruct (Hwf _ Hin) as [Hlt Hname]. cbn [fst snd] in *.
      rewrite length_app. split; [lia|]. by rewrite lookup_total_app_l.
    + repeat constructor; cbn [fst snd].
      * rewrite length_app. simpl. lia.
      * by rewrite list_lookup_total_middle.
  - apply Forall_app. split; [done|]. repeat constructor.
Qed.

Lemma Phone_init_value phone p : Phone.init phone = Ok p → Phone.init (Phone.value p) = Ok p.
Proof. intros H. destruct (Phone_init_Ok_nonempty _ _ H) as [_ ->]. done. Qed.

Lemma Record_add_phone_valid self phone σ :
  valid_store σ → valid_store (Record_add_phone self phone σ).2.
Proof.
  intros Hv. destruct (Phone.init phone) as [p|e] eqn:Hp.
  - rewrite (Record_add_phone_Ok _ _ _ _ Hp). cbn [snd].
    apply valid_store_alter; [done|]. intros r [Hps Hb]. split; [|done].
    split; [|done]. cbn [Record_.with_phones Record_.phones].
    apply Forall_app. split; [done|]. repeat constructor. by apply Phone_init_value in Hp.
  - by rewrite (Record_add_phone_Raise _ _ _ _ Hp).
Qed.

Lemma strptime_valid value dt :
  Datetime.strptime_dmY value = Ok dt →
  Datetime.valid dt = true
  ∧ Datetime.hour dt = 0 ∧ Datetime.minute dt = 0
  ∧ Datetime.second dt = 0 ∧ Datetime.microsecond dt = 0.
Proof.
  unfold Datetime.strptime_dmY.
  destruct (Datetime.match_dmY value) as [[[[d m] Y] rest]|]; [|discriminate].
  destruct (negb _); [discriminate|].
  intros [-> Hv]%Datetime_new_Ok. by split_and!.
Qed.

Lemma Record_add_birthday_valid self birthday σ :
  valid_store σ → valid_store (Record_add_birthday self birthday σ).2.
Proof.
  intros Hv. unfold Record_add_birthday, mbind, M_bind, lift, update.
  unfold Birthday.init. destruct (Datetime.strptime_dmY birthday) as [dt|[msg]] eqn:Hdt;
    cbn [snd]; [|done].
  apply valid_store_alter; [done|]. intros r [Hps Hb]. split; [|done].
  split; [done|]. cbn [Record_.with_birthday Record_.birthday Birthday.value].
  by apply strptime_valid in Hdt.
Qed.

Lemma add_contact_func_run name phone rest σ :
  add_contact_func (name :: phone :: rest) σ =
    let '(record, message, σ1) :=
      match dict_get name (records σ) with
      | Some record => (record, lit "Contact updated.", σ)
      | None =>
          (length (heap σ), lit "Contact added.",
           mkStore (heap σ ++ [Record_.mk (Name.mk name) [] None])
                   (dict_set name (length (heap σ)) (records σ)))
      end in
    if bool_decide (phone = []) then (Ok message, σ1)
    else match Record_add_phone record phone σ1 with
         | (Ok _, σ2) => (Ok message, σ2)
         | (Raise e, σ2) => (Raise e, σ2)
         end.
Proof.
  unfold add_contact_func, AddressBook_find, AddressBook_add_record, Record_init, Name.init.
  destruct (dict_get name (records σ)) as [record|] eqn:Hget.
  - unfold mbind at 1 2 3, M_bind, mret, M_ret. rewrite Hget.
    case_bool_decide; [done|]. by destruct (Record_add_phone record phone σ) as [[[]|e] σ2].
  - unfold_M. rewrite Hget. simpl.
    rewrite list_lookup_total_middle by done. simpl.
    case_bool_decide; [done|].
    by destruct (Record_add_phone _ phone _) as [[[]|e] σ2].
Qed.

Lemma add_contact_valid args σ : valid_store σ → valid_store (add_contact args σ).2.
Proof.
  intros Hv. unfold add_contact, input_error.
  destruct args as [|name [|phone rest]]; [done|done|].
  rewrite add_contact_func_run.
  assert (∀ record message σ1, valid_store σ1 →
            valid_store
              (match
                 (if bool_decide (phone = []) then (Ok message, σ1)
                  else match Record_add_phone record phone σ1 with
                       | (Ok _, σ2) => (@Ok pystr message, σ2)
                       | (Raise e, σ2) => (Raise e, σ2)
                       end)
               with
               | (Ok a, σ') => (Ok a, σ')
               | (Raise e, σ') => (Ok (str_exn e), σ')
               end).2) as Hphone.
  { intros record message σ1 Hv1. case_bool_decide; [done|].
    pose proof (Record_add_phone_valid record phone σ1 Hv1) as Hv2.
    by destruct (Record_add_phone record phone σ1) as [[[]|e] σ2]. }
  destruct (dict_get name (records σ)) as [record|] eqn:Hget.
  - by apply Hphone.
  - apply Hphone. by apply valid_store_new.
Qed.

Lemma without_first_Forall (P : Phone.t → Prop) old ps :
  Forall P ps → Forall P (without_first old ps).
Proof.
  induction 1 as [|p ps Hp Hps IH]; simpl; [done|].
  case_bool_decide; [done|]. by constructor.
Qed.

Lemma change_phone_valid args σ : valid_store σ → valid_store (change_phone args σ).2.
Proof.
  intros Hv. unfold change_phone, input_error, change_phone_func.
  destruct args as [|name [|old [|new [|extra rest]]]]; try done.
  unfold AddressBook_find. unfold mbind at 1 2 3, M_bind, deref.
  destruct (dict_get name (records σ)) as [record|] eqn:Hget; [|done].
  destruct (decide (old ∈ Phone.value <$> Record_.phones (heap σ !!! record))) as [Hold|Hold].
  - assert (valid_store
              (mkStore (alter (Record_.with_phones
                                 (without_first old (Record_.phones (heap σ !!! record))))
                          record (heap σ)) (records σ))) as Hv1.
    { apply valid_store_alter; [done|]. intros r [_ Hb]. split; [|done].
      split; [|done]. cbn [Record_.with_phones Record_.phones].
      apply without_first_Forall.
      destruct Hv as [[_ Hwf] Hrec]. rewrite list.Forall_forall in Hwf.
      destruct (Hwf _ (dict_get_Some_elem _ _ _ Hget)) as [Hlt _].
      by destruct (Forall_lookup_total_1 _ _ _ Hrec Hlt). }
    destruct (Phone.init new) as [p|e] eqn:Hnew.
    + rewrite (change_phone_loop_valid record [] _ old new p σ);
        [|reflexivity | apply not_elem_of_nil | done | done].
      cbn [snd]. pose proof (Record_add_phone_valid record new _ Hv1) as Hv2.
      by rewrite (Record_add_phone_Ok _ _ _ _ Hnew) in Hv2.
    + by rewrite (change_phone_loop_invalid record [] _ old new e σ);
        [|reflexivity | apply not_elem_of_nil | done | done].
  - by rewrite (change_phone_loop_not_found _ _ _ _ _ Hold).
Qed.

Lemma add_birthday_valid args σ : valid_store σ → valid_store (add_birthday args σ).2.
Proof.
  intros Hv. unfold add_birthday, input_error, add_birthday_func.
  destruct args as [|name [|birthday [|extra rest]]]; try done.
  unfold AddressBook_find. unfold mbind at 1 2, M_bind.
  destruct (dict_get name (records σ)) as [record|] eqn:Hget; [|done].
  pose proof (Record_add_birthday_valid record birthday σ Hv) as Hv1.
  by destruct (Record_add_birthday record birthday σ) as [[[]|e] σ1].
Qed.

Lemma valid_store_empty : valid_store (mkStore [] []).
Proof. split; [split|]; constructor. Qed.

(** The commands that change the book keep it valid: unique names, each
    entry at a record of that name, every phone of ten digits, every
    birthday a date of the calendar at midnight.  This holds whatever the
    arguments are and whether the command succeeds or answers with an
    error. *)
Theorem handlers_keep_valid_store (σ : store) (args : list pystr) :
  valid_store σ →
  valid_store (add_contact args σ).2
  ∧ valid_store (change_phone args σ).2
  ∧ valid_store (add_birthday args σ).2.
Proof.
  intros Hv. split_and!;
    [by apply add_contact_valid | by apply change_phone_valid | by apply add_birthday_valid].
Qed.

(** ** The commands that only read *)

Lemma show_birthday_read_only pad_year args σ :
  ∃ s, show_birthday pad_year args σ = (Ok s, σ).
Proof.
  unfold show_birthday, input_error, show_birthday_func.
  destruct args as [|name [|extra rest]]; [by eexists| |by eexists].
  unfold AddressBook_find, Record_show_birthday. unfold mbind at 1 2, M_bind, deref.
  destruct (dict_get name (records σ)) as [record|]; [|by eexists].
  destruct (Record_.birthday (heap σ !!! record)); by eexists.
Qed.

Lemma show_phones_read_only args σ : ∃ s, show_phones args σ = (Ok s, σ).
Proof.
  unfold show_phones, input_error, show_phones_func.
  destruct args as [|name [|extra rest]]; [by eexists| |by eexists].
  unfold AddressBook_find. unfold mbind at 1 2, M_bind, deref.
  destruct (dict_get name (records σ)) as [record|]; by eexists.
Qed.

Lemma show_all_contacts_read_only σ : ∃ s, show_all_contacts σ = (Ok s, σ).
Proof. by eexists. Qed.

Lemma birthdays_read_only today args σ : ∃ v, birthdays today args σ = (Ok v, σ).
Proof.
  unfold birthdays, input_error_val, AddressBook_get_upcoming_birthdays, mbind, M_bind.
  destruct (upcoming_loop _ _ _ _) as [names|e]; by eexists.
Qed.

(** The commands [show-birthday], [phone], [all] and [birthdays] answer
    whatever their arguments are, raise nothing, and leave the store as
    it is. *)
Theorem queries_read_only (pad_year : bool) (today : Datetime.t) (args : list pystr)
    (σ : store) :
  (∃ s, show_birthday pad_year args σ = (Ok s, σ))
  ∧ (∃ s, show_phones args σ = (Ok s, σ))
  ∧ (∃ s, show_all_contacts σ = (Ok s, σ))
  ∧ (∃ v, birthdays today args σ = (Ok v, σ)).
Proof.
  split_and!; [apply show_birthday_read_only | apply show_phones_read_only
              | apply show_all_contacts_read_only | apply birthdays_read_only].
Qed.

(** ** The [add-birthday] command *)

Lemma add_birthday_Ok args σ : ∃ s σ', add_birthday args σ = (Ok s, σ').
Proof.
  unfold add_birthday, input_error.
  destruct (add_birthday_func args σ) as [[s|e] σ']; by eexists _, _.
Qed.

(** [add_birthday] changes the store only when it answers "Birthday
    added.": with a wrong number of arguments, an unknown name or a date
    that is refused, the store is left as it was. *)
Theorem add_birthday_all_or_nothing (args : list pystr) (σ σ' : store) (answer : pystr) :
  add_birthday args σ = (Ok answer, σ') →
  answer ≠ lit "Birthday added." →
  σ' = σ.
Proof.
  unfold add_birthday, input_error, add_birthday_func.
  destruct args as [|name [|birthday [|extra rest]]]; try (intros [= _ <-]; done).
  unfold AddressBook_find. unfold mbind at 1 2, M_bind.
  destruct (dict_get name (records σ)) as [record|]; [|by intros [= _ <-]].
  unfold Record_add_birthday, mbind, M_bind, lift.
  destruct (Birthday.init birthday) as [b|e]; [|by intros [= _ <-]].
  intros [= <- _] Hne. done.
Qed.

(** For a contact of the book, a birthday typed as [DD.MM.YYYY] that
    names a date of the calendar is accepted by [add-birthday] and shown
    back by [show-birthday] as it was typed, where the year is written
    with its leading zeros or has none. *)
Theorem add_birthday_then_show (pad_year : bool) (σ : store) (name s : pystr)
    (record : loc) (d m y : Z) :
  dict_get name (records σ) = Some record →
  (record < length (heap σ))%nat →
  read_DDMMYYYY s = Some (d, m, y) → real_date y m d = true →
  pad_year = true ∨ 1000 ≤ y →
  ∃ σ', add_birthday [name; s] σ = (Ok (lit "Birthday added."), σ')
        ∧ show_birthday pad_year [name] σ' = (Ok s, σ').
Proof.
  intros Hget Hlt Hread Hreal Hpad.
  pose proof (strptime_DDMMYYYY _ _ _ _ Hread Hreal) as Hparse.
  assert (Birthday.init s = Ok (Birthday.mk (Datetime.mk y m d 0 0 0 0))) as Hinit
    by (unfold Birthday.init; by rewrite Hparse).
  eexists. split.
  - unfold add_birthday, input_error, add_birthday_func, AddressBook_find.
    unfold mbind at 1 2, M_bind. rewrite Hget.
    unfold Record_add_birthday, mbind, M_bind, lift, update. by rewrite Hinit.
  - unfold show_birthday, input_error, show_birthday_func, AddressBook_find,
      Record_show_birthday.
    unfold mbind at 1 2, M_bind, deref. cbn [records heap]. rewrite Hget.
    cbn [records heap]. rewrite list_lookup_total_alter_eq by done.
    cbn [Record_.with_birthday Record_.birthday Birthday.value].
    unfold mret, M_ret. by rewrite (strftime_DDMMYYYY _ _ _ _ _ Hread Hpad).
Qed.

(** ** Listing phones and contacts after [add] *)

Lemma fmap_phone_snoc (ps : list Phone.t) (p : Phone.t) :
  Phone.value <$> (ps ++ [p]) = (Phone.value <$> ps) ++ [Phone.value p].
Proof. by rewrite fmap_app. Qed.

(** After [add] with a phone that validates, [phone] shows the phones the
    contact had, in their order, followed by the new one: the phone alone
    for a contact that had none, otherwise the former text, a comma and a
    blank, and the phone. *)
Theorem show_phones_after_add (σ : store) (name phone : pystr) (p : Phone.t) :
  Phone.init phone = Ok p →
  let σ' := (add_contact [name; phone] σ).2 in
  (dict_get name (records σ) = None → show_phones [name] σ' = (Ok phone, σ'))
  ∧ (∀ record, dict_get name (records σ) = Some record → (record < length (heap σ))%nat →
       show_phones [name] σ' =
         (Ok (if bool_decide (Record_.phones (heap σ !!! record) = []) then phone
              else phones_text (heap σ !!! record) ++ lit ", " ++ phone), σ')).
Proof.
  intros Hp σ'. destruct (Phone_init_Ok_nonempty _ _ Hp) as [Hne ->].
  assert (add_contact [name; phone] σ =
            input_error (add_contact_func [name; phone]) σ) as Hrun by done.
  unfold input_error in Hrun. rewrite add_contact_func_run in Hrun.
  rewrite bool_decide_eq_false_2 in Hrun by done.
  split.
  - intros Hget. subst σ'. rewrite Hget in Hrun.
    rewrite (Record_add_phone_Ok _ _ _ _ Hp) in Hrun. rewrite Hrun. cbn [snd].
    unfold show_phones, input_error, show_phones_func, AddressBook_find.
    unfold mbind at 1 2, M_bind, deref, mret, M_ret. cbn [records heap].
    rewrite dict_get_set_eq. cbn [records heap].
    rewrite alter_app_r_alt by done. rewrite Nat.sub_diag. simpl.
    by rewrite list_lookup_total_middle.
  - intros record Hget Hlt. subst σ'. rewrite Hget in Hrun.
    rewrite (Record_add_phone_Ok _ _ _ _ Hp) in Hrun. rewrite Hrun. cbn [snd].
    unfold show_phones, input_error, show_phones_func, AddressBook_find.
    unfold mbind at 1 2, M_bind, deref, mret, M_ret. cbn [records heap].
    rewrite Hget. cbn [records heap]. rewrite list_lookup_total_alter_eq by done.
    unfold phones_text. cbn [Record_.with_phones Record_.phones].
    rewrite fmap_phone_snoc, str_join_snoc. cbn [Phone.value].
    destruct (Record_.phones (heap σ !!! record)); done.
Qed.

Lemma contact_lines_app_old (h : list Record_.t) (r : Record_.t) (d : dict nat) :
  Forall (λ e, (e.2 < length h)%nat) d →
  (λ l, contact_line ((h ++ [r]) !!! l)) <$> dict_values d
  = (λ l, contact_line (h !!! l)) <$> dict_values d.
Proof.
  unfold dict_values. induction 1 as [|[k l] d Hl Hd IH]; [done|].
  cbn [fmap list_fmap snd] in *. f_equal; [|done].
  by rewrite lookup_total_app_l.
Qed.

(** In a well-formed book, after [add] of a new name with a phone that
    validates, [all] shows the lines it showed before, in their order,
    and the line of the new contact after them: on its own for a book
    that was empty, otherwise after a line feed. *)
Theorem show_all_contacts_after_add (σ : store) (name phone : pystr) (p : Phone.t)
    (before : pystr) :
  wf_store σ →
  Phone.init phone = Ok p →
  dict_get name (records σ) = None →
  show_all_contacts σ = (Ok before, σ) →
  let σ' := (add_contact [name; phone] σ).2 in
  show_all_contacts σ' =
    (Ok (if bool_decide (records σ = []) then name ++ lit ": " ++ phone
         else before ++ [10] ++ name ++ lit ": " ++ phone), σ').
Proof.
  intros [Hnd Hwf] Hp Hget Hbefore σ'. destruct (Phone_init_Ok_nonempty _ _ Hp) as [Hne ->].
  assert (add_contact [name; phone] σ =
            input_error (add_contact_func [name; phone]) σ) as Hrun by done.
  unfold input_error in Hrun. rewrite add_contact_func_run in Hrun.
  rewrite bool_decide_eq_false_2, Hget in Hrun by done.
  rewrite (Record_add_phone_Ok _ _ _ _ Hp) in Hrun. subst σ'. rewrite Hrun. cbn [snd].
  unfold show_all_contacts, input_error, show_all_contacts_func in *.
  injection Hbefore as <-. cbn [records heap]. f_equal. f_equal.
  rewrite (dict_set_absent _ _ _ Hget).
  rewrite alter_app_r_alt by done. rewrite Nat.sub_diag. simpl alter.
  unfold dict_values. rewrite fmap_app, fmap_app. cbn [fmap list_fmap snd].
  rewrite list_lookup_total_middle by done.
  fold (dict_values (records σ)).
  rewrite contact_lines_app_old
    by (eapply list.Forall_impl; [exact Hwf|]; by intros e [? _]).
  rewrite str_join_snoc.
  unfold contact_line at 1 3, phones_text. cbn [Record_.name Record_.phones Name.value].
  cbn [fmap list_fmap str_join Phone.value].
  destruct (records σ) as [|e d]; [done|].
  rewrite !bool_decide_eq_false_2 by done. done.
Qed.

(** ** The [birthdays] command on a valid book *)

Lemma replace_year_valid dt y :
  Datetime.valid dt = true → in_range Datetime.MINYEAR Datetime.MAXYEAR y = true →
  Datetime.replace_year dt y =
    if (Datetime.month dt =? 2) && (Datetime.day dt =? 29) && negb (Datetime.is_leap y)
    then Raise (ValueError (lit "day is out of range for month"))
    else Ok (Datetime.mk y (Datetime.month dt) (Datetime.day dt) (Datetime.hour dt)
               (Datetime.minute dt) (Datetime.second dt) (Datetime.microsecond dt)).
Proof.
  intros Hv Hy. unfold Datetime.valid in Hv. rewrite !andb_true_iff in Hv.
  destruct Hv as [[[[[[_ Hm] Hd] Hh] Hmi] Hs] Hus].
  unfold Datetime.replace_year, Datetime.new, Datetime.check_date_args,
    Datetime.check_time_args.
  rewrite Hy, Hm, Hh, Hmi, Hs, Hus. cbn [negb].
  apply in_range_spec in Hm, Hd. unfold Datetime.days_in_month in *.
  destruct (Z.eqb_spec (Datetime.month dt) 2) as [Hm2|Hm2]; cbn [andb] in *.
  - destruct (Z.eqb_spec (Datetime.day dt) 29) as [Hd29|Hd29]; cbn [andb].
    + destruct (Datetime.is_leap y); cbn [negb]; rewrite Hm2, Hd29; reflexivity.
    + assert (in_range 1 (if Datetime.is_leap y then 29
                          else nth (Z.to_nat (Datetime.month dt))
                                 [-1; 31; 28; 31; 30; 31; 30; 31; 31; 30; 31; 30; 31] 0)
                (Datetime.day dt) = true) as ->; [|done].
      apply in_range_spec. rewrite Hm2 in *. simpl in *.
      destruct (Datetime.is_leap y), (Datetime.is_leap (Datetime.year dt)); lia.
  - assert (in_range 1 (nth (Z.to_nat (Datetime.month dt))
                          [-1; 31; 28; 31; 30; 31; 30; 31; 31; 30; 31; 30; 31] 0)
              (Datetime.day dt) = true) as ->; [|done].
    by apply in_range_spec.
Qed.

Lemma valid_record_lookup (h : list Record_.t) (l : nat) :
  Forall valid_record h → valid_record (h !!! l).
Proof.
  intros Hh. destruct (decide (l < length h)%nat) as [Hlt|Hge].
  - by apply Forall_lookup_total_1.
  - rewrite list_lookup_total_alt, lookup_ge_None_2 by lia. simpl.
    split; [constructor|done].
Qed.

Lemma upcoming_loop_leap_day today h values acc :
  Forall valid_record h → Datetime.valid today = true →
  existsb (λ l, match Record_.birthday (h !!! l) with
                | Some b => (Datetime.month (Birthday.value b) =? 2)
                            && (Datetime.day (Birthday.value b) =? 29)
                | None => false
                end) values
  && negb (Datetime.is_leap (Datetime.year today)) = true →
  upcoming_loop today h values acc = Raise (ValueError (lit "day is out of range for month")).
Proof.
  intros Hh Htoday. assert (in_range Datetime.MINYEAR Datetime.MAXYEAR (Datetime.year today)
                             = true) as Hy.
  { unfold Datetime.valid in Htoday. rewrite !andb_true_iff in Htoday. tauto. }
  intros [Hex Hleap]%andb_true_iff. revert acc.
  induction values as [|l values IH]; intros acc; [discriminate|].
  cbn [existsb] in Hex. cbn [upcoming_loop].
  pose proof (valid_record_lookup h l Hh) as [_ Hb].
  destruct (Record_.birthday (h !!! l)) as [b|].
  - destruct Hb as [Hvb _]. rewrite (replace_year_valid _ _ Hvb Hy). rewrite Hleap.
    destruct ((Datetime.month (Birthday.value b) =? 2)
              && (Datetime.day (Birthday.value b) =? 29)); [done|].
    cbn [andb orb] in *. destruct (_ && _); by apply IH.
  - by apply IH.
Qed.

Lemma upcoming_loop_no_leap_day today h values acc :
  Forall valid_record h → Datetime.valid today = true →
  existsb (λ l, match Record_.birthday (h !!! l) with
                | Some b => (Datetime.month (Birthday.value b) =? 2)
                            && (Datetime.day (Birthday.value b) =? 29)
                | None => false
                end) values
  && negb (Datetime.is_leap (Datetime.year today)) = false →
  ∃ names, upcoming_loop today h values acc = Ok names.
Proof.
  intros Hh Htoday. assert (in_range Datetime.MINYEAR Datetime.MAXYEAR (Datetime.year today)
                             = true) as Hy.
  { unfold Datetime.valid in Htoday. rewrite !andb_true_iff in Htoday. tauto. }
  intros Hno. apply upcoming_loop_total. intros l b Hl Hb.
  pose proof (valid_record_lookup h l Hh) as [_ Hvb]. rewrite Hb in Hvb.
  destruct Hvb as [Hvb _]. rewrite (replace_year_valid _ _ Hvb Hy).
  destruct (_ && _ && _) eqn:Hcase; [|by eexists].
  exfalso. apply andb_true_iff in Hcase as [Hday Hleap]. rewrite Hleap in Hno.
  rewrite andb_true_r in Hno. apply not_true_iff_false in Hno. apply Hno.
  apply existsb_exists. exists l. split; [by apply list_elem_of_In|]. by rewrite Hb.
Qed.

(** On a valid book and with a valid clock, [birthdays] answers with a
    list of names, except when the year is not a leap year and some
    contact has a birthday on a 29th of February: then it answers with the
    text "day is out of range for month", whatever the other contacts
    are. *)
Theorem birthdays_answer (σ : store) (today : Datetime.t) (args : list pystr) :
  valid_store σ → Datetime.valid today = true →
  if has_leap_day σ && negb (Datetime.is_leap (Datetime.year today))
  then birthdays today args σ = (Ok (VStr (lit "day is out of range for month")), σ)
  else ∃ names, birthdays today args σ = (Ok (VList names), σ).
Proof.
  intros [_ Hrec] Htoday.
  unfold birthdays, input_error_val, AddressBook_get_upcoming_birthdays, mbind, M_bind.
  unfold has_leap_day. destruct (_ && _) eqn:Hcase.
  - by rewrite (upcoming_loop_leap_day _ _ _ _ Hrec Htoday Hcase).
  - destruct (upcoming_loop_no_leap_day today _ _ [] Hrec Htoday Hcase) as [names ->].
    by exists names.
Qed.

(** ** The order of the names returned *)

Lemma upcoming_loop_sublist today h values acc names :
  upcoming_loop today h values acc = Ok names →
  ∃ sel, names = acc ++ sel
         ∧ sel `sublist_of` ((λ l, Name.value (Record_.name (h !!! l))) <$> values).
Proof.
  revert acc. induction values as [|l values IH]; intros acc; cbn [upcoming_loop].
  - intros [= <-]. exists []. by rewrite app_nil_r.
  - rewrite fmap_cons.
    destruct (Record_.birthday (h !!! l)) as [b|].
    + destruct (Datetime.replace_year _ _) as [D|e]; [|discriminate].
      destruct (_ && _); intros (sel & -> & Hsel)%IH.
      * exists (Name.value (Record_.name (h !!! l)) :: sel).
        rewrite <- (assoc_L (++)). split; [done|]. by constructor.
      * exists sel. split; [done|]. by constructor.
    + intros (sel & -> & Hsel)%IH. exists sel. split; [done|]. by constructor.
Qed.

Lemma wf_store_names_keys σ :
  wf_store σ →
  (λ l, Name.value (Record_.name (heap σ !!! l))) <$> dict_values (records σ)
  = dict_keys (records σ).
Proof.
  intros [_ Hwf]. unfold dict_values, dict_keys.
  induction Hwf as [|[k l] d [_ Hname] Hd IH]; [done|].
  cbn [fmap list_fmap fst snd] in *. by f_equal.
Qed.

(** In a well-formed book the names [get_upcoming_birthdays] returns come
    in the order in which the contacts were entered, and none comes
    twice. *)
Theorem upcoming_birthdays_in_book_order (σ : store) (today : Datetime.t)
    (names : list pystr) :
  wf_store σ →
  AddressBook_get_upcoming_birthdays today σ = (Ok names, σ) →
  names `sublist_of` dict_keys (records σ) ∧ NoDup names.
Proof.
  intros Hwf. unfold AddressBook_get_upcoming_birthdays. intros [= Hloop].
  apply upcoming_loop_sublist in Hloop as (sel & -> & Hsel).
  rewrite (wf_store_names_keys _ Hwf) in Hsel. simpl.
  split; [done|]. destruct Hwf as [Hnd _]. by eapply sublist_NoDup.
Qed.

(** ** The loop of [main] *)

Lemma add_contact_Ok args σ : ∃ s σ', add_contact args σ = (Ok s, σ').
Proof.
  unfold add_contact, input_error.
  destruct (add_contact_func args σ) as [[s|e] σ']; by eexists _, _.
Qed.

Lemma change_phone_Ok args σ : ∃ s σ', change_phone args σ = (Ok s, σ').
Proof.
  unfold change_phone, input_error.
  destruct (change_phone_func args σ) as [[s|e] σ']; by eexists _, _.
Qed.

(** A turn on a line with a token either goes on or breaks. *)
Lemma main_turn_token pad_year today user_input command args σ :
  parse_input user_input = command :: args →
  (∃ v σ', main_turn pad_year today user_input σ = Continue v σ'
           ∧ (valid_store σ → valid_store σ'))
  ∨ (main_turn pad_year today user_input σ = Break (VStr (lit "Good bye!"))
     ∧ command ∈ [lit "close"; lit "exit"]).
Proof.
  intros Hparse. unfold main_turn. rewrite Hparse.
  case_bool_decide as Hclose; [by right|]. left.
  repeat case_bool_decide.
  - by eexists _, _.
  - destruct (add_contact_Ok args σ) as (s & σ' & Hrun).
    pose proof (add_contact_valid args σ) as Hv. rewrite Hrun in *. by eexists _, _.
  - destruct (change_phone_Ok args σ) as (s & σ' & Hrun).
    pose proof (change_phone_valid args σ) as Hv. rewrite Hrun in *. by eexists _, _.
  - destruct (show_phones_read_only args σ) as [s ->]. by eexists _, _.
  - destruct (show_all_contacts_read_only σ) as [s ->]. by eexists _, _.
  - destruct (add_birthday_Ok args σ) as (s & σ' & Hrun).
    pose proof (add_birthday_valid args σ) as Hv. rewrite Hrun in *. by eexists _, _.
  - destruct (show_birthday_read_only pad_year args σ) as [s ->]. by eexists _, _.
  - destruct (birthdays_read_only today args σ) as [v ->]. by eexists _, _.
  - by eexists _, _.
Qed.

(** The one way a turn of the loop dies: a line with no token, the empty
    line or one of white space only.  Unpacking the command then fails
    outside every handler; any other line is answered. *)
Theorem main_turn_uncaught_iff (pad_year : bool) (today : Datetime.t) (user_input : pystr)
    (σ : store) (e : exn) :
  main_turn pad_year today user_input σ = Uncaught e
  ↔ Forall (λ c, py_isspace c = true) user_input
    ∧ e = ValueError (lit "not enough values to unpack (expected at least 1, got 0)").
Proof.
  rewrite <- str_split_nil. fold (parse_input user_input). split.
  - destruct (parse_input user_input) as [|command args] eqn:Hparse.
    + unfold main_turn. rewrite Hparse. by intros [= <-].
    + destruct (main_turn_token pad_year today user_input command args σ Hparse)
        as [(v & σ' & -> & _)|[-> _]]; discriminate.
  - intros [Hparse ->]. unfold main_turn. by rewrite Hparse.
Qed.

Lemma main_loop_app pad_year inputs rest σ out σ' :
  main_loop pad_year inputs σ = (out, Reading σ') →
  main_loop pad_year (inputs ++ rest) σ =
    let '(out', st) := main_loop pad_year rest σ' in (out ++ out', st).
Proof.
  revert σ out. induction inputs as [|[line today] inputs IH]; intros σ out; simpl.
  - intros [= <- <-]. by destruct (main_loop pad_year rest σ).
  - destruct (main_turn pad_year today line σ) as [v σ1|v|e]; [|discriminate..].
    destruct (main_loop pad_year inputs σ1) as [out1 st1] eqn:Hloop.
    intros [= <- ->]. rewrite (IH _ _ Hloop).
    by destruct (main_loop pad_year rest σ').
Qed.

(** While the loop is reading it has answered every line once, and a
    book that was valid is valid still. *)
Theorem main_loop_keeps_valid_store (pad_year : bool) (inputs : list (pystr * Datetime.t))
    (σ σ' : store) (out : list pyval) :
  valid_store σ →
  main_loop pad_year inputs σ = (out, Reading σ') →
  valid_store σ' ∧ length out = length inputs.
Proof.
  revert σ out. induction inputs as [|[line today] inputs IH]; intros σ out Hv; simpl.
  - by intros [= <- <-].
  - destruct (parse_input line) as [|command args] eqn:Hparse.
    { unfold main_turn. by rewrite Hparse. }
    destruct (main_turn_token pad_year today line command args σ Hparse)
      as [(v & σ1 & -> & Hv1)|[-> _]]; [|discriminate].
    destruct (main_loop pad_year inputs σ1) as [out1 st1] eqn:Hloop.
    intros [= <- ->]. destruct (IH _ _ (Hv1 Hv) Hloop) as [Hv' Hlen].
    split; [done|]. simpl. by rewrite Hlen.
Qed.

(** How the loop stops.  A line whose first token is [close] or [exit]
    prints "Good bye!" and ends it, whatever else is on the line; a line
    without a token kills it with nothing printed; in both cases no
    later line is read. *)
Theorem main_loop_stops (pad_year : bool) (inputs rest : list (pystr * Datetime.t))
    (line : pystr) (today : Datetime.t) (σ σ' : store) (out : list pyval) :
  main_loop pad_year inputs σ = (out, Reading σ') →
  (∀ command args, parse_input line = command :: args →
     command ∈ [lit "close"; lit "exit"] →
     main_loop pad_year (inputs ++ (line, today) :: rest) σ
     = (out ++ [VStr (lit "Good bye!")], Ended))
  ∧ (Forall (λ c, py_isspace c = true) line →
     main_loop pad_year (inputs ++ (line, today) :: rest) σ
     = (out, Crashed (ValueError
                        (lit "not enough values to unpack (expected at least 1, got 0)")))).
Proof.
  intros Hloop. rewrite (main_loop_app _ _ _ _ _ _ Hloop). split.
  - intros command args Hparse Hclose. cbn [main_loop]. unfold main_turn.
    rewrite Hparse. by rewrite bool_decide_eq_true_2.
  - intros Hblank%str_split_nil. cbn [main_loop]. unfold main_turn, parse_input.
    rewrite Hblank. by rewrite app_nil_r.
Qed.

(** * Instances *)

Example strptime_two_digit_fields :
  Datetime.strptime_dmY (lit "10.06.1990") = Ok (Datetime.mk 1990 6 10 0 0 0 0).
Proof. vm_compute. reflexivity. Qed.

Example strptime_one_digit_fields :
  Datetime.strptime_dmY (lit "1.6.1990") = Ok (Datetime.mk 1990 6 1 0 0 0 0).
Proof. vm_compute. reflexivity. Qed.

Example Birthday_init_no_such_day :
  Birthday.init (lit "31.02.2024") = Raise (ValueError (lit "Invalid date format. Use DD.MM.YYYY")).
Proof. vm_compute. reflexivity. Qed.

Example strftime_plain_year :
  Datetime.strftime_dmY false (Datetime.mk 999 1 2 0 0 0 0) = lit "02.01.999".
Proof. vm_compute. reflexivity. Qed.

Example strftime_padded_year :
  Datetime.strftime_dmY true (Datetime.mk 999 1 2 0 0 0 0) = lit "02.01.0999".
Proof. vm_compute. reflexivity. Qed.

Example toordinal_2024_06_10 : Datetime.toordinal (Datetime.mk 2024 6 10 0 0 0 0) = 739047.
Proof. vm_compute. reflexivity. Qed.

Example upcoming_in_two_days :
  (AddressBook_get_upcoming_birthdays (Datetime.mk 2024 6 10 0 0 0 0)
     (book_of_ann (lit "12.06.1990"))).1 = Ok [lit "Ann"].
Proof. vm_compute. reflexivity. Qed.

Example add_contact_without_phone :
  (add_contact [lit "Ann"] (mkStore [] [])).1
  = Ok (lit "not enough values to unpack (expected at least 2, got 1)").
Proof. vm_compute. reflexivity. Qed.

Lemma Phone_init_spec_witness :
  length (lit "0123456789") = 10%nat
  ∧ forallb Unicode.ascii_digit (lit "0123456789") = true
  ∧ Phone.init (lit "0123456789") = Ok (Phone.mk (lit "0123456789")).
Proof.
  split; [reflexivity|]. split; [reflexivity|].
  apply (Phone_init_spec (lit "0123456789")); reflexivity.
Defined.

Lemma add_contact_appends_witness :
  let σ := book_of_ann (lit "10.06.1990") in
  let p := Phone.mk (lit "1111111111") in
  Phone.init (lit "1111111111") = Ok p
  ∧ dict_get (lit "Ann") (records σ) = Some 0%nat
  ∧ (0 < length (heap σ))%nat
  ∧ dict_get (lit "Bob") (records σ) = None
  ∧ (∃ σ', add_contact [lit "Ann"; lit "1111111111"] σ = (Ok (lit "Contact updated."), σ')
           ∧ Record_.phones (heap σ' !!! 0%nat)
             = (Record_.phones (heap σ !!! 0%nat) ++ [p]))
  ∧ (∃ σ', add_contact [lit "Bob"; lit "1111111111"] σ = (Ok (lit "Contact added."), σ')
           ∧ heap σ' !!! length (heap σ) = Record_.mk (Name.mk (lit "Bob")) [p] None).
Proof.
  intros σ p.
  assert (Phone.init (lit "1111111111") = Ok p) as Hp by (vm_compute; reflexivity).
  assert (dict_get (lit "Ann") (records σ) = Some 0%nat) as Hget by (vm_compute; reflexivity).
  assert (0 < length (heap σ))%nat as Hlt by (vm_compute; lia).
  assert (dict_get (lit "Bob") (records σ) = None) as Hnew by (vm_compute; reflexivity).
  split_and!; try done.
  - destruct (add_contact_appends σ (lit "Ann") (lit "1111111111") [] p Hp) as [Hold _].
    destruct (Hold 0%nat Hget Hlt) as (σ' & Hrun & _ & _ & Hphones). by exists σ'.
  - destruct (add_contact_appends σ (lit "Bob") (lit "1111111111") [] p Hp) as [_ Hadd].
    destruct (Hadd Hnew) as (σ' & Hrun & _ & _ & _ & Hrec). by exists σ'.
Defined.

Lemma change_phone_old_not_found_witness :
  let σ := book_two_phones in
  dict_get (lit "Ann") (records σ) = Some 0%nat
  ∧ (lit "9999999999" ∉ Phone.value <$> Record_.phones (heap σ !!! 0%nat))
  ∧ change_phone [lit "Ann"; lit "9999999999"; lit "2222222222"] σ
    = (Ok (lit "Old phone number not found."), σ).
Proof.
  intros σ.
  assert (dict_get (lit "Ann") (records σ) = Some 0%nat) as Hget by (vm_compute; reflexivity).
  assert (lit "9999999999" ∉ Phone.value <$> Record_.phones (heap σ !!! 0%nat)) as Hold
    by (solve_by_decide).
  split_and!; [done|done|].
  exact (change_phone_old_not_found σ (lit "Ann") (lit "9999999999") (lit "2222222222") 0%nat
           Hget Hold).
Defined.

Lemma change_phone_invalid_new_loses_old_witness :
  let σ := book_two_phones in
  let e := ValueError (lit "Phone number must be 10 digits.") in
  dict_get (lit "Ann") (records σ) = Some 0%nat
  ∧ (0 < length (heap σ))%nat
  ∧ (lit "0123456789" ∈ Phone.value <$> Record_.phones (heap σ !!! 0%nat))
  ∧ Phone.init (lit "12") = Raise e
  ∧ ∃ σ', change_phone [lit "Ann"; lit "0123456789"; lit "12"] σ = (Ok (str_exn e), σ')
          ∧ Record_.phones (heap σ' !!! 0%nat)
            = without_first (lit "0123456789") (Record_.phones (heap σ !!! 0%nat)).
Proof.
  intros σ e.
  assert (dict_get (lit "Ann") (records σ) = Some 0%nat) as Hget by (vm_compute; reflexivity).
  assert (0 < length (heap σ))%nat as Hlt by (vm_compute; lia).
  assert (lit "0123456789" ∈ Phone.value <$> Record_.phones (heap σ !!! 0%nat)) as Hold
    by (solve_by_decide).
  assert (Phone.init (lit "12") = Raise e) as Hnew by (vm_compute; reflexivity).
  split_and!; try done.
  destruct (change_phone_invalid_new_loses_old σ (lit "Ann") (lit "0123456789") (lit "12")
              0%nat e Hget Hlt Hold Hnew) as (σ' & Hrun & _ & _ & _ & Hphones & _).
  by exists σ'.
Defined.

Lemma Record_add_birthday_replaces_or_keeps_witness :
  let σ := book_of_ann (lit "10.06.1990") in
  let b := Birthday.mk (Datetime.mk 1991 7 11 0 0 0 0) in
  (0 < length (heap σ))%nat
  ∧ Record_add_birthday 0 (lit "31.02.2024") σ
    = (Raise (ValueError (lit "Invalid date format. Use DD.MM.YYYY")), σ)
  ∧ ∃ σ', Record_add_birthday 0 (lit "11.07.1991") σ = (Ok (), σ')
          ∧ Record_.birthday (heap σ' !!! 0%nat) = Some b.
Proof.
  intros σ b.
  assert (0 < length (heap σ))%nat as Hlt by (vm_compute; lia).
  split_and!; [done| |].
  - destruct (Record_add_birthday_replaces_or_keeps σ 0%nat (lit "31.02.2024") Hlt)
      as [Hbad _].
    destruct (Hbad (ValueError (lit "Invalid date format. Use DD.MM.YYYY"))) as [Hrun _];
      [vm_compute; reflexivity | exact Hrun].
  - destruct (Record_add_birthday_replaces_or_keeps σ 0%nat (lit "11.07.1991") Hlt)
      as [_ Hgood].
    destruct (Hgood b) as (σ' & Hrun & Hb & _); [vm_compute; reflexivity|]. by exists σ'.
Defined.

Lemma add_record_overwrites_find_total_witness :
  let σ := book_of_ann (lit "10.06.1990") in
  NoDup (dict_keys (records σ))
  ∧ (∃ σ', AddressBook_add_record 0 σ = (Ok (), σ')
           ∧ AddressBook_find (lit "Ann") σ' = (Ok (Some 0%nat), σ'))
  ∧ ∃ found, AddressBook_find (lit "Bob") σ = (Ok found, σ) ∧ found = None.
Proof.
  intros σ.
  assert (NoDup (dict_keys (records σ))) as Hnd
    by (solve_by_decide).
  destruct (add_record_overwrites_find_total σ 0%nat Hnd) as [Hadd Hfind].
  split_and!; [done| |].
  - destruct Hadd as (σ' & Hrun & _ & _ & Hf & _). by exists σ'.
  - destruct (Hfind (lit "Bob")) as (found & Hrun & _ & Hnone).
    exists found. split; [done|]. apply Hnone.
    solve_by_decide.
Defined.

Lemma leap_day_birthday_raises_witness :
  let σ := book_of_ann (lit "29.02.2000") in
  let today := Datetime.mk 2023 3 1 8 0 0 0 in
  let b := Birthday.mk (Datetime.mk 2000 2 29 0 0 0 0) in
  (lit "Ann", 0%nat) ∈ records σ
  ∧ Record_.birthday (heap σ !!! 0%nat) = Some b
  ∧ Datetime.is_leap (Datetime.year today) = false
  ∧ ∃ msg, AddressBook_get_upcoming_birthdays today σ = (Raise (ValueError msg), σ).
Proof.
  intros σ today b.
  assert ((lit "Ann", 0%nat) ∈ records σ) as Hin
    by (solve_by_decide).
  assert (Record_.birthday (heap σ !!! 0%nat) = Some b) as Hb by (vm_compute; reflexivity).
  assert (Datetime.is_leap (Datetime.year today) = false) as Hleap by reflexivity.
  split_and!; try done.
  exact (leap_day_birthday_raises σ today (lit "Ann") 0%nat b Hin Hb eq_refl eq_refl Hleap).
Defined.

Lemma past_birthday_excluded_witness :
  let σ := book_of_ann (lit "02.01.1990") in
  let today := Datetime.mk 2024 12 30 9 30 0 0 in
  let b := Birthday.mk (Datetime.mk 1990 1 2 0 0 0 0) in
  let D := Datetime.mk 2024 1 2 0 0 0 0 in
  wf_store σ ∧ Datetime.valid today = true
  ∧ (lit "Ann", 0%nat) ∈ records σ
  ∧ Record_.birthday (heap σ !!! 0%nat) = Some b
  ∧ Datetime.replace_year (Birthday.value b) (Datetime.year today) = Ok D
  ∧ date_before D today = true
  ∧ ∃ names, AddressBook_get_upcoming_birthdays today σ = (Ok names, σ) ∧ lit "Ann" ∉ names.
Proof.
  intros σ today b D.
  assert (wf_store σ) as Hwf by (solve_by_decide).
  assert (Datetime.valid today = true) as Hv by reflexivity.
  assert ((lit "Ann", 0%nat) ∈ records σ) as Hin
    by (solve_by_decide).
  assert (Record_.birthday (heap σ !!! 0%nat) = Some b) as Hb by (vm_compute; reflexivity).
  assert (Datetime.replace_year (Birthday.value b) (Datetime.year today) = Ok D) as HD
    by (vm_compute; reflexivity).
  assert (date_before D today = true) as Hbefore by reflexivity.
  split_and!; try done.
  apply (past_birthday_excluded σ today (lit "Ann") 0%nat b D Hwf Hv Hin Hb HD Hbefore).
  intros k' l' b' Hin' Hb'.
  assert (l' = 0%nat) as ->.
  { change (records σ) with [(lit "Ann", 0%nat)] in Hin'.
    apply list_elem_of_singleton in Hin'. congruence. }
  rewrite Hb in Hb'. injection Hb' as <-. by exists D.
Defined.

Lemma Birthday_round_trip_witness :
  let σ := book_of_ann (lit "10.06.1990") in
  read_DDMMYYYY (lit "29.02.2024") = Some (29, 2, 2024)
  ∧ real_date 2024 2 29 = true
  ∧ (0 < length (heap σ))%nat
  ∧ ∃ b σ', Birthday.init (lit "29.02.2024") = Ok b
            ∧ Record_add_birthday 0 (lit "29.02.2024") σ = (Ok (), σ')
            ∧ Record_show_birthday false 0 σ' = (Ok (lit "29.02.2024"), σ').
Proof.
  intros σ.
  assert (read_DDMMYYYY (lit "29.02.2024") = Some (29, 2, 2024)) as Hread by reflexivity.
  assert (real_date 2024 2 29 = true) as Hreal by reflexivity.
  assert (0 < length (heap σ))%nat as Hlt by (vm_compute; lia).
  split_and!; try done.
  apply (Birthday_round_trip false (lit "29.02.2024") 29 2 2024 σ 0%nat Hread Hreal);
    [right; lia | exact Hlt].
Defined.

Lemma upcoming_birthdays_names_witness :
  let σ := book_of_ann (lit "17.06.1990") in
  let today := Datetime.mk 2024 6 10 12 0 0 0 in
  wf_store σ
  ∧ (lit "Ann", 0%nat) ∈ records σ
  ∧ AddressBook_get_upcoming_birthdays today σ = (Ok [lit "Ann"], σ)
  ∧ (lit "Ann" ∈ [lit "Ann"] ↔ appended today (heap σ) 0%nat).
Proof.
  intros σ today.
  assert (wf_store σ) as Hwf by solve_by_decide.
  assert ((lit "Ann", 0%nat) ∈ records σ) as Hin by solve_by_decide.
  assert (AddressBook_get_upcoming_birthdays today σ = (Ok [lit "Ann"], σ)) as Hrun
    by (vm_compute; reflexivity).
  split_and!; try done.
  exact (upcoming_birthdays_names σ today [lit "Ann"] (lit "Ann") 0%nat Hwf Hin Hrun).
Defined.

Lemma parse_input_join_witness :
  Forall is_token [lit "add"; lit "Ann"; lit "0123456789"]
  ∧ parse_input (str_join (lit " ") [lit "add"; lit "Ann"; lit "0123456789"])
    = [lit "add"; lit "Ann"; lit "0123456789"].
Proof.
  assert (Forall is_token [lit "add"; lit "Ann"; lit "0123456789"]) as Htok
    by solve_by_decide.
  split; [done|].
  exact (parse_input_join [lit "add"; lit "Ann"; lit "0123456789"] Htok).
Defined.

Lemma change_phone_moves_to_end_witness :
  let σ := book_two_phones in
  let p := Phone.mk (lit "3333333333") in
  dict_get (lit "Ann") (records σ) = Some 0%nat
  ∧ (0 < length (heap σ))%nat
  ∧ (lit "0123456789" ∈ Phone.value <$> Record_.phones (heap σ !!! 0%nat))
  ∧ Phone.init (lit "3333333333") = Ok p
  ∧ ∃ σ', change_phone [lit "Ann"; lit "0123456789"; lit "3333333333"] σ
          = (Ok (lit "Phone number updated."), σ')
          ∧ Record_.phones (heap σ' !!! 0%nat)
            = (without_first (lit "0123456789") (Record_.phones (heap σ !!! 0%nat)) ++ [p]).
Proof.
  intros σ p.
  assert (dict_get (lit "Ann") (records σ) = Some 0%nat) as Hget by (vm_compute; reflexivity).
  assert (0 < length (heap σ))%nat as Hlt by (vm_compute; lia).
  assert (lit "0123456789" ∈ Phone.value <$> Record_.phones (heap σ !!! 0%nat)) as Hold
    by solve_by_decide.
  assert (Phone.init (lit "3333333333") = Ok p) as Hnew by (vm_compute; reflexivity).
  split_and!; [exact Hget | exact Hlt | exact Hold | exact Hnew |].
  destruct (change_phone_moves_to_end σ (lit "Ann") (lit "0123456789") (lit "3333333333")
              0%nat p Hget Hlt Hold Hnew) as (σ' & Hrun & Hphones & _).
  by exists σ'.
Defined.

Lemma add_contact_refused_phone_witness :
  let σ := book_two_phones in
  let e := ValueError (lit "Phone number must be 10 digits.") in
  Phone.init (lit "12") = Raise e
  ∧ lit "12" ≠ []
  ∧ dict_get (lit "Bob") (records σ) = None
  ∧ ∃ σ', add_contact [lit "Bob"; lit "12"] σ = (Ok (str_exn e), σ')
          ∧ heap σ' = heap σ ++ [Record_.mk (Name.mk (lit "Bob")) [] None]
          ∧ dict_get (lit "Bob") (records σ') = Some (length (heap σ)).
Proof.
  intros σ e.
  assert (Phone.init (lit "12") = Raise e) as He by (vm_compute; reflexivity).
  assert (lit "12" ≠ []) as Hne by (vm_compute; discriminate).
  assert (dict_get (lit "Bob") (records σ) = None) as Hget by (vm_compute; reflexivity).
  split_and!; [exact He | exact Hne | exact Hget |].
  destruct (add_contact_refused_phone σ (lit "Bob") (lit "12") [] e He Hne)
    as (_ & _ & Hnew).
  destruct (Hnew Hget) as (σ' & Hrun & Hheap & _ & Hfind). by exists σ'.
Defined.

Lemma handlers_keep_valid_store_witness :
  let σ := book_two_phones in
  valid_store σ
  ∧ valid_store (add_contact [lit "Bob"; lit "12"] σ).2
  ∧ valid_store (change_phone [lit "Ann"; lit "0123456789"; lit "12"] σ).2
  ∧ valid_store (add_birthday [lit "Ann"; lit "29.02.2024"] σ).2.
Proof.
  intros σ. assert (valid_store σ) as Hv by solve_by_decide.
  split_and!; [done|..].
  - exact (proj1 (handlers_keep_valid_store σ [lit "Bob"; lit "12"] Hv)).
  - exact (proj1 (proj2 (handlers_keep_valid_store σ
                           [lit "Ann"; lit "0123456789"; lit "12"] Hv))).
  - exact (proj2 (proj2 (handlers_keep_valid_store σ [lit "Ann"; lit "29.02.2024"] Hv))).
Defined.

Lemma add_birthday_all_or_nothing_witness :
  let σ := book_two_phones in
  add_birthday [lit "Ann"; lit "31.02.2024"] σ
    = (Ok (lit "Invalid date format. Use DD.MM.YYYY"), σ)
  ∧ lit "Invalid date format. Use DD.MM.YYYY" ≠ lit "Birthday added."
  ∧ σ = σ.
Proof.
  intros σ.
  assert (add_birthday [lit "Ann"; lit "31.02.2024"] σ
          = (Ok (lit "Invalid date format. Use DD.MM.YYYY"), σ)) as Hrun
    by (vm_compute; reflexivity).
  assert (lit "Invalid date format. Use DD.MM.YYYY" ≠ lit "Birthday added.") as Hne
    by (vm_compute; discriminate).
  split_and!; [done|done|].
  exact (add_birthday_all_or_nothing [lit "Ann"; lit "31.02.2024"] σ σ _ Hrun Hne).
Defined.

Lemma add_birthday_then_show_witness :
  let σ := book_two_phones in
  dict_get (lit "Ann") (records σ) = Some 0%nat
  ∧ (0 < length (heap σ))%nat
  ∧ read_DDMMYYYY (lit "29.02.2024") = Some (29, 2, 2024)
  ∧ real_date 2024 2 29 = true
  ∧ ∃ σ', add_birthday [lit "Ann"; lit "29.02.2024"] σ = (Ok (lit "Birthday added."), σ')
          ∧ show_birthday false [lit "Ann"] σ' = (Ok (lit "29.02.2024"), σ').
Proof.
  intros σ.
  assert (dict_get (lit "Ann") (records σ) = Some 0%nat) as Hget by (vm_compute; reflexivity).
  assert (0 < length (heap σ))%nat as Hlt by (vm_compute; lia).
  assert (read_DDMMYYYY (lit "29.02.2024") = Some (29, 2, 2024)) as Hread by reflexivity.
  assert (real_date 2024 2 29 = true) as Hreal by reflexivity.
  split_and!; [exact Hget | exact Hlt | exact Hread | exact Hreal |].
  apply (add_birthday_then_show false σ (lit "Ann") (lit "29.02.2024") 0%nat 29 2 2024
           Hget Hlt Hread Hreal).
  right. lia.
Defined.

Lemma show_phones_after_add_witness :
  let σ := book_two_phones in
  let p := Phone.mk (lit "3333333333") in
  Phone.init (lit "3333333333") = Ok p
  ∧ dict_get (lit "Ann") (records σ) = Some 0%nat
  ∧ (0 < length (heap σ))%nat
  ∧ show_phones [lit "Ann"] (add_contact [lit "Ann"; lit "3333333333"] σ).2
    = (Ok (lit "0123456789, 1111111111, 3333333333"),
       (add_contact [lit "Ann"; lit "3333333333"] σ).2).
Proof.
  intros σ p.
  assert (Phone.init (lit "3333333333") = Ok p) as Hp by (vm_compute; reflexivity).
  assert (dict_get (lit "Ann") (records σ) = Some 0%nat) as Hget by (vm_compute; reflexivity).
  assert (0 < length (heap σ))%nat as Hlt by (vm_compute; lia).
  split_and!; [exact Hp | exact Hget | exact Hlt |].
  exact (proj2 (show_phones_after_add σ (lit "Ann") (lit "3333333333") p Hp) 0%nat Hget Hlt).
Defined.

Lemma show_all_contacts_after_add_witness :
  let σ := book_two_phones in
  let p := Phone.mk (lit "2222222222") in
  let before := lit "Ann: 0123456789, 1111111111" in
  wf_store σ
  ∧ Phone.init (lit "2222222222") = Ok p
  ∧ dict_get (lit "Bob") (records σ) = None
  ∧ show_all_contacts σ = (Ok before, σ)
  ∧ show_all_contacts (add_contact [lit "Bob"; lit "2222222222"] σ).2
    = (Ok (before ++ [10] ++ lit "Bob: 2222222222"),
       (add_contact [lit "Bob"; lit "2222222222"] σ).2).
Proof.
  intros σ p before.
  assert (wf_store σ) as Hwf by solve_by_decide.
  assert (Phone.init (lit "2222222222") = Ok p) as Hp by (vm_compute; reflexivity).
  assert (dict_get (lit "Bob") (records σ) = None) as Hget by (vm_compute; reflexivity).
  assert (show_all_contacts σ = (Ok before, σ)) as Hbefore by (vm_compute; reflexivity).
  split_and!; [exact Hwf | exact Hp | exact Hget | exact Hbefore |].
  exact (show_all_contacts_after_add σ (lit "Bob") (lit "2222222222") p before
           Hwf Hp Hget Hbefore).
Defined.

Lemma birthdays_answer_witness :
  let σ := book_of_ann_and_bob (lit "29.02.2000") in
  let today := Datetime.mk 2023 2 27 10 0 0 0 in
  valid_store σ ∧ Datetime.valid today = true
  ∧ birthdays today [] σ = (Ok (VStr (lit "day is out of range for month")), σ).
Proof.
  intros σ today.
  assert (valid_store σ) as Hv by solve_by_decide.
  assert (Datetime.valid today = true) as Ht by reflexivity.
  split_and!; [done|done|].
  exact (birthdays_answer σ today [] Hv Ht).
Defined.

Lemma upcoming_birthdays_in_book_order_witness :
  let σ := book_of_ann_and_bob (lit "12.06.1990") in
  let today := Datetime.mk 2024 6 10 12 0 0 0 in
  wf_store σ
  ∧ AddressBook_get_upcoming_birthdays today σ = (Ok [lit "Bob"], σ)
  ∧ [lit "Bob"] `sublist_of` dict_keys (records σ) ∧ NoDup [lit "Bob"].
Proof.
  intros σ today.
  assert (wf_store σ) as Hwf by solve_by_decide.
  assert (AddressBook_get_upcoming_birthdays today σ = (Ok [lit "Bob"], σ)) as Hrun
    by (vm_compute; reflexivity).
  split_and!; [done|done|..];
    apply (upcoming_birthdays_in_book_order σ today [lit "Bob"] Hwf Hrun).
Defined.

Lemma main_loop_keeps_valid_store_witness :
  let today := Datetime.mk 2024 6 10 12 0 0 0 in
  let inputs := [(lit "add Ann 0123456789", today); (lit "add Bob 12", today);
                 (lit "change Ann 0123456789 12", today);
                 (lit "add-birthday Bob 31.02.2024", today); (lit "birthdays", today)] in
  valid_store (mkStore [] [])
  ∧ ∃ out σ', main_loop false inputs (mkStore [] []) = (out, Reading σ')
              ∧ valid_store σ' ∧ length out = length inputs.
Proof.
  intros today inputs.
  assert (valid_store (mkStore [] [])) as Hv by solve_by_decide.
  split; [done|].
  destruct (main_loop false inputs (mkStore [] [])) as [out st] eqn:Hloop.
  assert (∃ σ', st = Reading σ') as [σ' ->]
    by (vm_compute in Hloop; injection Hloop as _ <-; by eexists).
  exists out, σ'. split; [done|].
  exact (main_loop_keeps_valid_store false inputs (mkStore [] []) σ' out Hv Hloop).
Defined.

Lemma main_loop_stops_witness :
  let today := Datetime.mk 2024 6 10 12 0 0 0 in
  let inputs := [(lit "hello", today)] in
  let σ := mkStore [] [] in
  main_loop false inputs σ = ([VStr (lit "How can I help you?")], Reading σ)
  ∧ parse_input (lit "exit now please") = [lit "exit"; lit "now"; lit "please"]
  ∧ lit "exit" ∈ [lit "close"; lit "exit"]
  ∧ Forall (λ c, py_isspace c = true) (lit "   ")
  ∧ main_loop false (inputs ++ (lit "exit now please", today) :: [(lit "hello", today)]) σ
    = ([VStr (lit "How can I help you?")] ++ [VStr (lit "Good bye!")], Ended)
  ∧ main_loop false (inputs ++ (lit "   ", today) :: [(lit "hello", today)]) σ
    = ([VStr (lit "How can I help you?")],
       Crashed (ValueError (lit "not enough values to unpack (expected at least 1, got 0)"))).
Proof.
  intros today inputs σ.
  assert (main_loop false inputs σ = ([VStr (lit "How can I help you?")], Reading σ)) as Hloop
    by (vm_compute; reflexivity).
  assert (parse_input (lit "exit now please") = [lit "exit"; lit "now"; lit "please"])
    as Hparse by (vm_compute; reflexivity).
  assert (lit "exit" ∈ [lit "close"; lit "exit"]) as Hexit by solve_by_decide.
  assert (Forall (λ c, py_isspace c = true) (lit "   ")) as Hblank by solve_by_decide.
  split_and!; [exact Hloop | exact Hparse | exact Hexit | exact Hblank | |].
  - exact (proj1 (main_loop_stops false inputs [(lit "hello", today)] (lit "exit now please")
                    today σ σ _ Hloop) _ _ Hparse Hexit).
  - exact (proj2 (main_loop_stops false inputs [(lit "hello", today)] (lit "   ")
                    today σ σ _ Hloop) Hblank).
Defined.
